(** * Alexa media player: state reconciliation and command dispatch

    A shallow embedding of [custom_components/alexa_media/media_player.py]
    (class [AlexaClient]) and the properties of its event handler, refresh,
    poll scheduler and command dispatcher.

    Conventions of the embedding.
    - The shared per-account dictionary [hass.data[DATA_ALEXAMEDIA]["accounts"][email]]
      is the record [World]; its ["entities"]["media_player"] registry is the
      object store: an entity is addressed by its registry key, so two
      references to one Python object (the registry entry, [self],
      [_playing_parent]) are one key of the store.
    - A method [async def f(self, ...)] is a function [f m ... : World -> World]
      where [m] is the registry key of [self]; on a key without entity it
      does nothing.  Calls out of the module
      (remote session, timers, the platform's state writer, [asyncio.sleep])
      are appended to the effect trace of the world.
    - A dictionary value that the code tests for truthiness is an [option]
      ([None]: key absent, [None] or empty), a string is truthy when it is
      not empty, a number when it is not zero.
    - Numbers that Python divides with [/] are exact rationals ([Q]);
      floating-point rounding is not part of the model.
    - Payloads carry the keys the code subscripts and remote calls return
      (no exception is raised); the [_catch_login_errors] wrapper and debug
      logging are dropped. *)

From Stdlib Require Import ZArith QArith Lia.
From stdpp Require Import base strings gmap list.

Close Scope Q_scope.
Open Scope string_scope.
Open Scope Z_scope.
Open Scope list_scope.

(** ** Constants of the host platform ([homeassistant.const]) *)

Definition STATE_IDLE : string := "idle".
Definition STATE_PAUSED : string := "paused".
Definition STATE_PLAYING : string := "playing".
Definition STATE_STANDBY : string := "standby".
Definition STATE_UNAVAILABLE : string := "unavailable".

(** ** Payloads *)

(** An entry of [bluetooth_state["pairedDeviceList"]]. *)
Record PairedDevice := {
  connected : bool;
  friendlyName : string;
  profiles : list string;
  address : string;
}.

Record BluetoothState := {
  deviceSerialNumber : string;
  pairedDeviceList : option (list PairedDevice);
}.

(** A volume dictionary [{"volume": int, "muted": bool}]. *)
Record VolumeInfo := {
  volume : option Z;
  muted : option bool;
}.

Record LemurVolume := {
  compositeVolume : option VolumeInfo;
  memberVolume : gmap string VolumeInfo;
}.

(** The ["playerInfo"] dictionary of a session. *)
Record PlayerInfo := {
  pi_state : option string;
  pi_transport : gmap string string;
  pi_volume : option VolumeInfo;
  pi_lemurVolume : option LemurVolume;
  pi_isPlayingInLemur : bool;
  pi_mediaProgress : option Z;
  pi_mediaLength : option Z;
  pi_title : option string;
  pi_subText1 : option string;
  pi_subText2 : option string;
  pi_mainArt_url : option string;
}.

(** A device listing, [accounts[email]["devices"]["media_player"][serial]];
    of [appDeviceList] only the serial numbers are kept.  The identity
    fields that no operation below reads (family, type, owner, software
    version, locale, time zone, do-not-disturb, authentication details) are
    left out. *)
Record Device := {
  serialNumber : string;
  appDeviceList : list string;
  online : bool;
  capabilities : list string;
  clusterMembers : list string;
  parentClusters : list string;
  bluetooth_state : BluetoothState;
}.

Record LastCalled := {
  lc_serialNumber : string;
  lc_timestamp : Z;
}.

(** ** Events of the bus *)

Record LastCalledChange := {
  lcc_serialNumber : string;
  lcc_timestamp : Z;
}.

Record PlayerState := {
  ps_deviceSerialNumber : string;
  audioPlayerState : option string;
  mediaReferenceId : option string;
  volumeSetting : option Z;
  dopplerConnectionState : option string;
}.

Record QueueState := {
  qs_deviceSerialNumber : string;
  trackOrderChanged : option bool;
  loopMode : option string;
  playBackOrder : option string;
}.

(** [event.data]: the outer [option] of a field says whether the key is in
    the dictionary, the inner one whether its value is truthy.  For
    ["push_activity"] the field is the result of
    [.get("push_activity", {}).get("key", {}).get("serialNumber")]. *)
Record EventData := {
  last_called_change : option (option LastCalledChange);
  bluetooth_change : option (option BluetoothState);
  player_state : option (option PlayerState);
  queue_state : option (option QueueState);
  push_activity : option (option string);
}.

(** ** The device snapshot *)

(** The fields reset together by [_clear_media_details]. *)
Record MediaDetails := {
  _media_duration : option Z;
  _media_image_url : option string;
  _media_title : option string;
  _media_pos : option Z;
  _media_album_name : option string;
  _media_artist : option string;
  _media_player_state : option string;
  _media_is_muted : option bool;
}.

(** [enabled] is [None] when the platform's entity class has no such
    attribute ([AttributeError] in the source); [hass] says whether
    [self.hass] is set; [_last_update] is [None] for the literal [0] the
    scheduler tests for and [Some t] for a time stamp; [_playing_parent] is
    the registry key of the parent entity. *)
Record AlexaClient := {
  enabled : option bool;
  hass : bool;
  entity_id : option string;
  _device_serial_number : string;
  _available : option bool;
  _capabilities : list string;
  _cluster_members : list string;
  _parent_clusters : list string;
  _app_device_list : list string;
  _bluetooth_state : BluetoothState;
  _session : option PlayerInfo;
  media : MediaDetails;
  _media_vol_level : option Q;
  _previous_volume : option Q;
  _source : option string;
  _source_list : list string;
  _shuffle : option bool;
  _repeat : option bool;
  _playing_parent : option string;
  _last_called : option bool;
  _last_called_timestamp : option Z;
  _should_poll : bool;
  _last_update : option Z;
}.

(** ** Effects and the shared account data *)

Inductive Effect :=
| ApiGetState (s : string)
| ApiSetVolume (s : string) (v : Q)
| ApiPlay (s : string)
| Sleep (seconds : Z)
| Refresh (s : string)
| ScheduleUpdate (s : string) (force_refresh : bool)
| CallLater (s : string) (set_at delay : Z)
| GatherUpdate (s : string)
| WarnMultipleParents (s : string).

(** [remote s] is what [self.alexa_api.get_state()] answers for the entity
    [s]: the [playerInfo] of the answer, [None] for an empty answer and for
    one without a truthy [playerInfo], which repopulates nothing either.
    [clock] is [util.utcnow()] in seconds. *)
Record World := {
  entities : gmap string AlexaClient;
  devices : gmap string Device;
  websocket : bool;
  websocket_commands : option (gset string);
  last_called : option LastCalled;
  remote : string -> option PlayerInfo;
  clock : Z;
  effects : list Effect;
}.

(** ** Field updates *)

Definition set_available (v : option bool) (c : AlexaClient) : AlexaClient :=
  {| enabled := enabled c; hass := hass c; entity_id := entity_id c;
     _device_serial_number := _device_serial_number c; _available := v;
     _capabilities := _capabilities c; _cluster_members := _cluster_members c;
     _parent_clusters := _parent_clusters c;
     _app_device_list := _app_device_list c;
     _bluetooth_state := _bluetooth_state c; _session := _session c;
     media := media c; _media_vol_level := _media_vol_level c;
     _previous_volume := _previous_volume c; _source := _source c;
     _source_list := _source_list c; _shuffle := _shuffle c;
     _repeat := _repeat c; _playing_parent := _playing_parent c;
     _last_called := _last_called c;
     _last_called_timestamp := _last_called_timestamp c;
     _should_poll := _should_poll c; _last_update := _last_update c |}.

Definition set_bluetooth_state (v : BluetoothState) (c : AlexaClient) : AlexaClient :=
  {| enabled := enabled c; hass := hass c; entity_id := entity_id c;
     _device_serial_number := _device_serial_number c;
     _available := _available c; _capabilities := _capabilities c;
     _cluster_members := _cluster_members c;
     _parent_clusters := _parent_clusters c;
     _app_device_list := _app_device_list c; _bluetooth_state := v;
     _session := _session c; media := media c;
     _media_vol_level := _media_vol_level c;
     _previous_volume := _previous_volume c; _source := _source c;
     _source_list := _source_list c; _shuffle := _shuffle c;
     _repeat := _repeat c; _playing_parent := _playing_parent c;
     _last_called := _last_called c;
     _last_called_timestamp := _last_called_timestamp c;
     _should_poll := _should_poll c; _last_update := _last_update c |}.

Definition set_session (v : option PlayerInfo) (c : AlexaClient) : AlexaClient :=
  {| enabled := enabled c; hass := hass c; entity_id := entity_id c;
     _device_serial_number := _device_serial_number c;
     _available := _available c; _capabilities := _capabilities c;
     _cluster_members := _cluster_members c;
     _parent_clusters := _parent_clusters c;
     _app_device_list := _app_device_list c;
     _bluetooth_state := _bluetooth_state c; _session := v; media := media c;
     _media_vol_level := _media_vol_level c;
     _previous_volume := _previous_volume c; _source := _source c;
     _source_list := _source_list c; _shuffle := _shuffle c;
     _repeat := _repeat c; _playing_parent := _playing_parent c;
     _last_called := _last_called c;
     _last_called_timestamp := _last_called_timestamp c;
     _should_poll := _should_poll c; _last_update := _last_update c |}.

Definition set_media (v : MediaDetails) (c : AlexaClient) : AlexaClient :=
  {| enabled := enabled c; hass := hass c; entity_id := entity_id c;
     _device_serial_number := _device_serial_number c;
     _available := _available c; _capabilities := _capabilities c;
     _cluster_members := _cluster_members c;
     _parent_clusters := _parent_clusters c;
     _app_device_list := _app_device_list c;
     _bluetooth_state := _bluetooth_state c; _session := _session c;
     media := v; _media_vol_level := _media_vol_level c;
     _previous_volume := _previous_volume c; _source := _source c;
     _source_list := _source_list c; _shuffle := _shuffle c;
     _repeat := _repeat c; _playing_parent := _playing_parent c;
     _last_called := _last_called c;
     _last_called_timestamp := _last_called_timestamp c;
     _should_poll := _should_poll c; _last_update := _last_update c |}.

Definition set_media_vol_level (v : option Q) (c : AlexaClient) : AlexaClient :=
  {| enabled := enabled c; hass := hass c; entity_id := entity_id c;
     _device_serial_number := _device_serial_number c;
     _available := _available c; _capabilities := _capabilities c;
     _cluster_members := _cluster_members c;
     _parent_clusters := _parent_clusters c;
     _app_device_list := _app_device_list c;
     _bluetooth_state := _bluetooth_state c; _session := _session c;
     media := media c; _media_vol_level := v;
     _previous_volume := _previous_volume c; _source := _source c;
     _source_list := _source_list c; _shuffle := _shuffle c;
     _repeat := _repeat c; _playing_parent := _playing_parent c;
     _last_called := _last_called c;
     _last_called_timestamp := _last_called_timestamp c;
     _should_poll := _should_poll c; _last_update := _last_update c |}.

Definition set_previous_volume (v : option Q) (c : AlexaClient) : AlexaClient :=
  {| enabled := enabled c; hass := hass c; entity_id := entity_id c;
     _device_serial_number := _device_serial_number c;
     _available := _available c; _capabilities := _capabilities c;
     _cluster_members := _cluster_members c;
     _parent_clusters := _parent_clusters c;
     _app_device_list := _app_device_list c;
     _bluetooth_state := _bluetooth_state c; _session := _session c;
     media := media c; _media_vol_level := _media_vol_level c;
     _previous_volume := v; _source := _source c;
     _source_list := _source_list c; _shuffle := _shuffle c;
     _repeat := _repeat c; _playing_parent := _playing_parent c;
     _last_called := _last_called c;
     _last_called_timestamp := _last_called_timestamp c;
     _should_poll := _should_poll c; _last_update := _last_update c |}.

Definition set_source (v : option string) (c : AlexaClient) : AlexaClient :=
  {| enabled := enabled c; hass := hass c; entity_id := entity_id c;
     _device_serial_number := _device_serial_number c;
     _available := _available c; _capabilities := _capabilities c;
     _cluster_members := _cluster_members c;
     _parent_clusters := _parent_clusters c;
     _app_device_list := _app_device_list c;
     _bluetooth_state := _bluetooth_state c; _session := _session c;
     media := media c; _media_vol_level := _media_vol_level c;
     _previous_volume := _previous_volume c; _source := v;
     _source_list := _source_list c; _shuffle := _shuffle c;
     _repeat := _repeat c; _playing_parent := _playing_parent c;
     _last_called := _last_called c;
     _last_called_timestamp := _last_called_timestamp c;
     _should_poll := _should_poll c; _last_update := _last_update c |}.

Definition set_source_list (v : list string) (c : AlexaClient) : AlexaClient :=
  {| enabled := enabled c; hass := hass c; entity_id := entity_id c;
     _device_serial_number := _device_serial_number c;
     _available := _available c; _capabilities := _capabilities c;
     _cluster_members := _cluster_members c;
     _parent_clusters := _parent_clusters c;
     _app_device_list := _app_device_list c;
     _bluetooth_state := _bluetooth_state c; _session := _session c;
     media := media c; _media_vol_level := _media_vol_level c;
     _previous_volume := _previous_volume c; _source := _source c;
     _source_list := v; _shuffle := _shuffle c; _repeat := _repeat c;
     _playing_parent := _playing_parent c; _last_called := _last_called c;
     _last_called_timestamp := _last_called_timestamp c;
     _should_poll := _should_poll c; _last_update := _last_update c |}.

Definition set_shuffle (v : option bool) (c : AlexaClient) : AlexaClient :=
  {| enabled := enabled c; hass := hass c; entity_id := entity_id c;
     _device_serial_number := _device_serial_number c;
     _available := _available c; _capabilities := _capabilities c;
     _cluster_members := _cluster_members c;
     _parent_clusters := _parent_clusters c;
     _app_device_list := _app_device_list c;
     _bluetooth_state := _bluetooth_state c; _session := _session c;
     media := media c; _media_vol_level := _media_vol_level c;
     _previous_volume := _previous_volume c; _source := _source c;
     _source_list := _source_list c; _shuffle := v; _repeat := _repeat c;
     _playing_parent := _playing_parent c; _last_called := _last_called c;
     _last_called_timestamp := _last_called_timestamp c;
     _should_poll := _should_poll c; _last_update := _last_update c |}.

Definition set_repeat (v : option bool) (c : AlexaClient) : AlexaClient :=
  {| enabled := enabled c; hass := hass c; entity_id := entity_id c;
     _device_serial_number := _device_serial_number c;
     _available := _available c; _capabilities := _capabilities c;
     _cluster_members := _cluster_members c;
     _parent_clusters := _parent_clusters c;
     _app_device_list := _app_device_list c;
     _bluetooth_state := _bluetooth_state c; _session := _session c;
     media := media c; _media_vol_level := _media_vol_level c;
     _previous_volume := _previous_volume c; _source := _source c;
     _source_list := _source_list c; _shuffle := _shuffle c; _repeat := v;
     _playing_parent := _playing_parent c; _last_called := _last_called c;
     _last_called_timestamp := _last_called_timestamp c;
     _should_poll := _should_poll c; _last_update := _last_update c |}.

Definition set_playing_parent (v : option string) (c : AlexaClient) : AlexaClient :=
  {| enabled := enabled c; hass := hass c; entity_id := entity_id c;
     _device_serial_number := _device_serial_number c;
     _available := _available c; _capabilities := _capabilities c;
     _cluster_members := _cluster_members c;
     _parent_clusters := _parent_clusters c;
     _app_device_list := _app_device_list c;
     _bluetooth_state := _bluetooth_state c; _session := _session c;
     media := media c; _media_vol_level := _media_vol_level c;
     _previous_volume := _previous_volume c; _source := _source c;
     _source_list := _source_list c; _shuffle := _shuffle c;
     _repeat := _repeat c; _playing_parent := v;
     _last_called := _last_called c;
     _last_called_timestamp := _last_called_timestamp c;
     _should_poll := _should_poll c; _last_update := _last_update c |}.

Definition set_last_called (v : option bool) (c : AlexaClient) : AlexaClient :=
  {| enabled := enabled c; hass := hass c; entity_id := entity_id c;
     _device_serial_number := _device_serial_number c;
     _available := _available c; _capabilities := _capabilities c;
     _cluster_members := _cluster_members c;
     _parent_clusters := _parent_clusters c;
     _app_device_list := _app_device_list c;
     _bluetooth_state := _bluetooth_state c; _session := _session c;
     media := media c; _media_vol_level := _media_vol_level c;
     _previous_volume := _previous_volume c; _source := _source c;
     _source_list := _source_list c; _shuffle := _shuffle c;
     _repeat := _repeat c; _playing_parent := _playing_parent c;
     _last_called := v; _last_called_timestamp := _last_called_timestamp c;
     _should_poll := _should_poll c; _last_update := _last_update c |}.

Definition set_last_called_timestamp (v : option Z) (c : AlexaClient) : AlexaClient :=
  {| enabled := enabled c; hass := hass c; entity_id := entity_id c;
     _device_serial_number := _device_serial_number c;
     _available := _available c; _capabilities := _capabilities c;
     _cluster_members := _cluster_members c;
     _parent_clusters := _parent_clusters c;
     _app_device_list := _app_device_list c;
     _bluetooth_state := _bluetooth_state c; _session := _session c;
     media := media c; _media_vol_level := _media_vol_level c;
     _previous_volume := _previous_volume c; _source := _source c;
     _source_list := _source_list c; _shuffle := _shuffle c;
     _repeat := _repeat c; _playing_parent := _playing_parent c;
     _last_called := _last_called c; _last_called_timestamp := v;
     _should_poll := _should_poll c; _last_update := _last_update c |}.

Definition set_should_poll (v : bool) (c : AlexaClient) : AlexaClient :=
  {| enabled := enabled c; hass := hass c; entity_id := entity_id c;
     _device_serial_number := _device_serial_number c;
     _available := _available c; _capabilities := _capabilities c;
     _cluster_members := _cluster_members c;
     _parent_clusters := _parent_clusters c;
     _app_device_list := _app_device_list c;
     _bluetooth_state := _bluetooth_state c; _session := _session c;
     media := media c; _media_vol_level := _media_vol_level c;
     _previous_volume := _previous_volume c; _source := _source c;
     _source_list := _source_list c; _shuffle := _shuffle c;
     _repeat := _repeat c; _playing_parent := _playing_parent c;
     _last_called := _last_called c;
     _last_called_timestamp := _last_called_timestamp c; _should_poll := v;
     _last_update := _last_update c |}.

Definition set_last_update (v : option Z) (c : AlexaClient) : AlexaClient :=
  {| enabled := enabled c; hass := hass c; entity_id := entity_id c;
     _device_serial_number := _device_serial_number c;
     _available := _available c; _capabilities := _capabilities c;
     _cluster_members := _cluster_members c;
     _parent_clusters := _parent_clusters c;
     _app_device_list := _app_device_list c;
     _bluetooth_state := _bluetooth_state c; _session := _session c;
     media := media c; _media_vol_level := _media_vol_level c;
     _previous_volume := _previous_volume c; _source := _source c;
     _source_list := _source_list c; _shuffle := _shuffle c;
     _repeat := _repeat c; _playing_parent := _playing_parent c;
     _last_called := _last_called c;
     _last_called_timestamp := _last_called_timestamp c;
     _should_poll := _should_poll c; _last_update := v |}.

Definition set_entities (v : gmap string AlexaClient) (w : World) : World :=
  {| entities := v; devices := devices w; websocket := websocket w;
     websocket_commands := websocket_commands w; last_called := last_called w;
     remote := remote w; clock := clock w; effects := effects w |}.

Definition set_clock (v : Z) (w : World) : World :=
  {| entities := entities w; devices := devices w; websocket := websocket w;
     websocket_commands := websocket_commands w; last_called := last_called w;
     remote := remote w; clock := v; effects := effects w |}.

Definition set_effects (v : list Effect) (w : World) : World :=
  {| entities := entities w; devices := devices w; websocket := websocket w;
     websocket_commands := websocket_commands w; last_called := last_called w;
     remote := remote w; clock := clock w; effects := v |}.


Definition put (m : string) (c : AlexaClient) (w : World) : World :=
  set_entities (<[m:=c]> (entities w)) w.

Definition upd (m : string) (f : AlexaClient -> AlexaClient) (w : World) : World :=
  set_entities (alter f m (entities w)) w.

Definition emit (e : Effect) (w : World) : World :=
  set_effects (effects w ++ [e]) w.

Definition emits (l : list Effect) (w : World) : World :=
  set_effects (effects w ++ l) w.

(** [await asyncio.sleep(n)] *)
Definition sleep (n : Z) (w : World) : World :=
  emit (Sleep n) (set_clock (clock w + n) w).

(** ** Python truthiness *)

Definition truthy (o : option bool) : bool :=
  match o with Some b => b | None => false end.

Definition truthy_str (o : option string) : bool :=
  match o with Some s => negb (String.eqb s "") | None => false end.

Definition str_is (o : option string) (s : string) : bool :=
  match o with Some x => String.eqb x s | None => false end.

Definition isSome {A} (o : option A) : bool :=
  match o with Some _ => true | None => false end.

Definition mem (x : string) (l : list string) : bool := bool_decide (x ∈ l).

(** ** Properties of [AlexaClient] *)

Definition available (c : AlexaClient) : option bool := _available c.

Definition state (c : AlexaClient) : string :=
  if negb (truthy (available c)) then STATE_UNAVAILABLE
  else if str_is (_media_player_state (media c)) "PLAYING" then STATE_PLAYING
  else if str_is (_media_player_state (media c)) "PAUSED" then STATE_PAUSED
  else if str_is (_media_player_state (media c)) "IDLE" then STATE_IDLE
  else STATE_STANDBY.

Definition volume_level (c : AlexaClient) : option Q := _media_vol_level c.

Definition set_media_is_muted (v : option bool) (c : AlexaClient) : AlexaClient :=
  set_media
    {| _media_duration := _media_duration (media c);
       _media_image_url := _media_image_url (media c);
       _media_title := _media_title (media c);
       _media_pos := _media_pos (media c);
       _media_album_name := _media_album_name (media c);
       _media_artist := _media_artist (media c);
       _media_player_state := _media_player_state (media c);
       _media_is_muted := v |} c.

(** ** Source and last-called resolution *)

Definition paired (c : AlexaClient) : list PairedDevice :=
  default [] (pairedDeviceList (_bluetooth_state c)).

Definition _get_source (c : AlexaClient) : string :=
  default "Local Speaker"
    (friendlyName <$>
       List.find (fun d => connected d && mem (friendlyName d) (_source_list c))
                 (paired c)).

Definition _get_source_list (c : AlexaClient) : list string :=
  "Local Speaker" ::
  (friendlyName <$>
     List.filter (fun d => mem "A2DP-SOURCE" (profiles d)) (paired c)).

(** An entity without [hass] reads no last-called record; a missing record
    is the [TypeError]/[KeyError] the source catches. *)
Definition _get_last_called (w : World) (c : AlexaClient) : bool :=
  match (if hass c then lc_serialNumber <$> last_called w else None) with
  | Some s =>
      String.eqb (_device_serial_number c) s || mem s (_app_device_list c)
  | None => false
  end.

(** ** [refresh] *)

(** [if device is not None: ...] *)
Definition apply_listing (d : Device) (c : AlexaClient) : AlexaClient :=
  {| enabled := enabled c; hass := hass c; entity_id := entity_id c;
     _device_serial_number := serialNumber d;
     _available := Some (online d);
     _capabilities := capabilities d;
     _cluster_members := clusterMembers d;
     _parent_clusters := parentClusters d;
     _app_device_list := appDeviceList d;
     _bluetooth_state := bluetooth_state d;
     _session := _session c; media := media c;
     _media_vol_level := _media_vol_level c;
     _previous_volume := _previous_volume c;
     _source := _source c; _source_list := _source_list c;
     _shuffle := _shuffle c; _repeat := _repeat c;
     _playing_parent := _playing_parent c;
     _last_called := _last_called c;
     _last_called_timestamp := _last_called_timestamp c;
     _should_poll := _should_poll c; _last_update := _last_update c |}.

(** [if "PAIR_BT_SOURCE" in self._capabilities: ...]: the source is looked
    up in the source list as it was before this refresh. *)
Definition refresh_sources (c : AlexaClient) : AlexaClient :=
  if mem "PAIR_BT_SOURCE" (_capabilities c)
  then let c1 := set_source (Some (_get_source c)) c in
       set_source_list (_get_source_list c1) c1
  else c.

Definition refresh_last_called (w : World) (c : AlexaClient) : AlexaClient :=
  let c1 := set_last_called (Some (_get_last_called w c)) c in
  if _get_last_called w c
  then set_last_called_timestamp (lc_timestamp <$> last_called w) c1
  else c1.

(** The parent clusters that are registered and report [STATE_PLAYING]. *)
Definition is_playing (w : World) (x : string) : bool :=
  match entities w !! x with
  | Some p => String.eqb (state p) STATE_PLAYING
  | None => false
  end.

Definition playing_parents (w : World) (c : AlexaClient) : list string :=
  if hass c then List.filter (is_playing w) (_parent_clusters c) else [].

(** The copy of the parent's session a member takes over: it is not itself
    the compound player, and its volume is its own member volume when the
    parent has one for it. *)
Definition member_session (self_serial : string) (ps : PlayerInfo) : PlayerInfo :=
  {| pi_state := pi_state ps;
     pi_transport := pi_transport ps;
     pi_volume :=
       match pi_lemurVolume ps ≫= (fun lv => memberVolume lv !! self_serial) with
       | Some v => Some v
       | None => pi_volume ps
       end;
     pi_lemurVolume := None;
     pi_isPlayingInLemur := false;
     pi_mediaProgress := pi_mediaProgress ps;
     pi_mediaLength := pi_mediaLength ps;
     pi_title := pi_title ps;
     pi_subText1 := pi_subText1 ps;
     pi_subText2 := pi_subText2 ps;
     pi_mainArt_url := pi_mainArt_url ps |}.

Definition cleared : MediaDetails :=
  {| _media_duration := None; _media_image_url := None; _media_title := None;
     _media_pos := None; _media_album_name := None; _media_artist := None;
     _media_player_state := None; _media_is_muted := None |}.

Definition _clear_media_details (c : AlexaClient) : AlexaClient :=
  set_media cleared c.

(** [x == "SELECTED" if (key in transport and x != "DISABLED") else None]
    for [x = transport[key]]. *)
Definition tri_state (transport : gmap string string) (key : string) : option bool :=
  match transport !! key with
  | Some x => if negb (String.eqb x "DISABLED")
              then Some (String.eqb x "SELECTED") else None
  | None => None
  end.

Definition percent (o : option Z) (keep : option Q) : option Q :=
  match o with
  | Some z => if negb (Z.eqb z 0) then Some (Qmake z 100) else keep
  | None => keep
  end.

(** The body of [if self._session.get("state"):] up to the volume. *)
Definition populate (pi : PlayerInfo) (c : AlexaClient) : AlexaClient :=
  let vi := match pi_lemurVolume pi with
            | None => pi_volume pi
            | Some lv => compositeVolume lv
            end in
  let md :=
    {| _media_duration := pi_mediaLength pi;
       _media_image_url := pi_mainArt_url pi;
       _media_title := pi_title pi;
       _media_pos := pi_mediaProgress pi;
       _media_album_name := pi_subText2 pi;
       _media_artist := pi_subText1 pi;
       _media_player_state := pi_state pi;
       _media_is_muted :=
         match vi with
         | Some v => muted v
         | None => match pi_lemurVolume pi with
                   | None => _media_is_muted (media c)
                   | Some _ => None
                   end
         end |} in
  set_media_vol_level (percent (vi ≫= volume) (_media_vol_level c))
                      (set_media md c).

(** From [await self._clear_media_details()] to the end of [refresh], the
    fire-and-forget updates of the cluster members apart. *)
Definition apply_session (session : option PlayerInfo) (c : AlexaClient) : AlexaClient :=
  let c1 := set_session session (_clear_media_details c) in
  match session with
  | None => c1
  | Some pi =>
      let c2 := if bool_decide (pi_transport pi ≠ ∅)
                then set_repeat (tri_state (pi_transport pi) "repeat")
                       (set_shuffle (tri_state (pi_transport pi) "shuffle") c1)
                else c1 in
      if truthy_str (pi_state pi) then populate pi c2 else c2
  end.

Definition is_available (w : World) (x : string) : bool :=
  match entities w !! x with
  | Some e => truthy (available e)
  | None => false
  end.

(** [asyncio.gather] of the members' [async_update]: scheduled, not awaited. *)
Definition gather_members (w : World) (c : AlexaClient) : list Effect :=
  match _session c with
  | Some pi =>
      if truthy_str (pi_state pi) && hass c && pi_isPlayingInLemur pi
      then GatherUpdate <$> List.filter (is_available w) (_cluster_members c)
      else []
  | None => []
  end.

Definition finish_refresh (m : string) (session : option PlayerInfo) (w : World) : World :=
  match entities w !! m with
  | None => w
  | Some c =>
      let c' := apply_session session c in
      let w' := put m c' w in
      emits (gather_members w' c') w'
  end.

(** [session = await self.alexa_api.get_state()] with no playing parent. *)
Definition own_session (m : string) (w : World) : World :=
  finish_refresh m (remote w m)
    (emit (ApiGetState m) (upd m (set_playing_parent None) w)).

(** The body of [refresh].  [async_update] calls it with [no_throttle=True],
    so the throttle of the decorator never drops that call. *)
Definition refresh (m : string) (device : option Device) (skip_api : bool)
    (w : World) : World :=
  match entities w !! m with
  | None => w
  | Some c0 =>
      let c1 := match device with Some d => apply_listing d c0 | None => c0 end in
      if negb (truthy (available c1)) then finish_refresh m None (put m c1 w)
      else
        let c2 := refresh_last_called w (refresh_sources c1) in
        let w2 := put m c2 w in
        if skip_api then w2
        else if negb (mem "MUSIC_SKILL" (_capabilities c2))
        then finish_refresh m None w2
        else
          match playing_parents w2 c2 with
          | p :: rest =>
              let w3 := match rest with
                        | [] => w2
                        | _ :: _ => emit (WarnMultipleParents m) w2
                        end in
              let w4 := upd m (set_playing_parent (Some p)) w3 in
              match entities w4 !! p ≫= _session with
              | Some ps =>
                  finish_refresh m
                    (Some (member_session (_device_serial_number c2) ps)) w4
              | None => own_session m w4
              end
          | [] => own_session m w2
          end
  end.

(** ** [async_update]: refresh and poll scheduling *)

Definition audio_push_seen (seen : gset string) : bool :=
  bool_decide ("PUSH_AUDIO_PLAYER_STATE" ∈ seen)
  || bool_decide ("PUSH_MEDIA_CHANGE" ∈ seen)
  || bool_decide ("PUSH_MEDIA_PROGRESS_CHANGE" ∈ seen).

(** [seen_commands and not (... in seen_commands or ...)] *)
Definition seen_without_audio (seen : option (gset string)) : bool :=
  match seen with
  | Some s => negb (bool_decide (s = ∅)) && negb (audio_push_seen s)
  | None => false
  end.

(** [not seen_commands or not (... in seen_commands or ...)] *)
Definition push_unproven (seen : option (gset string)) : bool :=
  match seen with
  | Some s => bool_decide (s = ∅) || negb (audio_push_seen s)
  | None => true
  end.

Section Scheduler.

(** [from .const import PLAY_SCAN_INTERVAL]: the constant is not part of
    this file; the scheduler is stated for any value of it. *)
Variable PLAY_SCAN_INTERVAL : Z.

(** [self._last_update == 0 or now - self._last_update > PLAY_SCAN_INTERVAL] *)
Definition scan_due (now : Z) (last : option Z) : bool :=
  match last with
  | None => true
  | Some t => PLAY_SCAN_INTERVAL <? now - t
  end.

(** The code after [await self.refresh(device, no_throttle=True)]; [seen]
    was read before the refresh. *)
Definition schedule_poll (m : string) (seen : option (gset string)) (w : World) : World :=
  match entities w !! m with
  | None => w
  | Some c =>
      let w1 :=
        if String.eqb (state c) STATE_PLAYING
           && (negb (websocket w) || push_unproven seen)
        then
          let w' := upd m (set_should_poll false) w in
          if scan_due (clock w) (_last_update c)
          then emit (CallLater m (clock w) PLAY_SCAN_INTERVAL) w'
          else w'
        else if _should_poll c
        then
          let w' := upd m (set_should_poll false) w in
          if negb (websocket w) then emit (CallLater m (clock w) 300) w' else w'
        else w in
      emit (ScheduleUpdate m false)
           (upd m (set_last_update (Some (clock w))) w1)
  end.

(** A registered entity has a listing under its [unique_id]; without one
    the subscript raises and the update is abandoned. *)
Definition async_update (m : string) (w : World) : World :=
  match entities w !! m with
  | None => w
  | Some c =>
      if bool_decide (enabled c = Some false) then w
      else if negb (isSome (entity_id c)) then w
      else
        match devices w !! _device_serial_number c with
        | None => w
        | Some device =>
            schedule_poll m (websocket_commands w)
              (refresh m (Some device) false (emit (Refresh m) w))
        end
  end.

(** ** [_handle_event] *)

Definition _refresh_if_no_audiopush (m : string) (already_refreshed : bool)
    (w : World) : World :=
  if negb already_refreshed && seen_without_audio (websocket_commands w)
  then async_update m w
  else w.

Definition event_serial (d : EventData) : option string :=
  match last_called_change d with
  | Some v => lcc_serialNumber <$> v
  | None =>
  match bluetooth_change d with
  | Some v => deviceSerialNumber <$> v
  | None =>
  match player_state d with
  | Some v => ps_deviceSerialNumber <$> v
  | None =>
  match queue_state d with
  | Some v => qs_deviceSerialNumber <$> v
  | None =>
  match push_activity d with
  | Some v => v
  | None => None
  end end end end end.

(** [if self.hass and self.async_schedule_update_ha_state: ...] *)
Definition schedule_if_hass (m : string) (force_refresh : bool) (w : World) : World :=
  match entities w !! m with
  | Some c => if hass c then emit (ScheduleUpdate m force_refresh) w else w
  | None => w
  end.

Definition is_for (c : AlexaClient) (sn : string) : bool :=
  String.eqb sn (_device_serial_number c).

Definition on_last_called (m : string) (v : option LastCalledChange) (sn : string)
    (w : World) : World :=
  match entities w !! m with
  | None => w
  | Some c =>
      let c' :=
        if is_for c sn || mem sn (_app_device_list c)
        then set_last_called_timestamp (lcc_timestamp <$> v)
               (set_last_called (Some true) c)
        else set_last_called (Some false) c in
      schedule_if_hass m (negb (websocket w)) (put m c' w)
  end.

Definition on_bluetooth (m : string) (v : option BluetoothState) (sn : string)
    (w : World) : World :=
  match entities w !! m, v with
  | Some c, Some bt =>
      if is_for c sn
      then
        let c1 := set_bluetooth_state bt c in
        let c2 := set_source (Some (_get_source c1)) c1 in
        let c3 := set_source_list (_get_source_list c2) c2 in
        schedule_if_hass m false (put m c3 w)
      else w
  | _, _ => w
  end.

(** Returns the world and [already_refreshed]. *)
Definition on_player_state (m : string) (v : option PlayerState) (sn : string)
    (w : World) : World * bool :=
  match entities w !! m, v with
  | Some c, Some p =>
      if is_for c sn
      then
        let '(w1, already) :=
          if isSome (audioPlayerState p)
          then (async_update m (sleep 2 w), true)
          else if isSome (mediaReferenceId p)
          then (async_update m w, true)
          else
            match volumeSetting p with
            | Some z =>
                (schedule_if_hass m false
                   (upd m (set_media_vol_level (Some (Qmake z 100))) w), false)
            | None =>
                match dopplerConnectionState p with
                | Some s =>
                    (schedule_if_hass m false
                       (upd m (set_available (Some (String.eqb s "ONLINE"))) w),
                     false)
                | None => (w, false)
                end
            end in
        (_refresh_if_no_audiopush m already w1, already)
      else (w, false)
  | _, _ => (w, false)
  end.

Definition on_push_activity (m : string) (w : World) : World * bool :=
  match entities w !! m with
  | Some c =>
      if mem (state c) [STATE_IDLE; STATE_PAUSED; STATE_PLAYING]
      then (async_update m (sleep 2 w), true)
      else (w, false)
  | None => (w, false)
  end.

Definition on_queue_state (m : string) (v : option QueueState) (sn : string)
    (already_refreshed : bool) (w : World) : World :=
  match entities w !! m, v with
  | Some c, Some q =>
      if is_for c sn
      then
        let w1 :=
          if bool_decide (trackOrderChanged q = Some false) && isSome (loopMode q)
          then upd m (set_repeat (Some (str_is (loopMode q) "LOOP_QUEUE"))) w
          else match playBackOrder q with
               | Some o => upd m (set_shuffle (Some (String.eqb o "SHUFFLE_ALL"))) w
               | None => w
               end in
        _refresh_if_no_audiopush m already_refreshed w1
      else w
  | _, _ => w
  end.

(** The handler from the first [if "last_called_change" in event.data] on:
    an [if]/[elif] chain over four shapes, then the queue state by itself. *)
Definition dispatch (m : string) (ev : EventData) (sn : string) (w : World) : World :=
  let '(w1, already) :=
    match last_called_change ev with
    | Some v => (on_last_called m v sn w, false)
    | None =>
    match bluetooth_change ev with
    | Some v => (on_bluetooth m v sn w, false)
    | None =>
    match player_state ev with
    | Some v => on_player_state m v sn w
    | None =>
    match push_activity ev with
    | Some _ => on_push_activity m w
    | None => (w, false)
    end end end end in
  match queue_state ev with
  | Some v => on_queue_state m v sn already w1
  | None => w1
  end.

(** [self.available = True; self.async_schedule_update_ha_state()] *)
Definition mark_available (m : string) (w : World) : World :=
  emit (ScheduleUpdate m false) (upd m (set_available (Some true)) w).

Definition _handle_event (m : string) (ev : EventData) (w : World) : World :=
  match entities w !! m with
  | None => w
  | Some c =>
      if bool_decide (enabled c = Some false) then w
      else
        match event_serial ev with
        | None => w
        | Some sn =>
            if String.eqb sn "" then w
            else dispatch m ev sn (mark_available m w)
        end
  end.

(** ** Commands *)

(** [if not websocket: await self.async_update()] *)
Definition after_command (m : string) (w : World) : World :=
  if negb (websocket w) then async_update m w else w.

Definition async_set_volume_level (m : string) (v : Q) (w : World) : World :=
  match entities w !! m with
  | None => w
  | Some c =>
      if negb (truthy (available c)) then w
      else after_command m
             (upd m (set_media_vol_level (Some v)) (emit (ApiSetVolume m v) w))
  end.

Definition async_mute_volume (m : string) (mute : bool) (w : World) : World :=
  match entities w !! m with
  | None => w
  | Some c =>
      if negb (truthy (available c)) then w
      else
        let c1 := set_media_is_muted (Some mute) c in
        let w1 :=
          if mute
          then emit (ApiSetVolume m 0%Q)
                 (put m (set_previous_volume (volume_level c1) c1) w)
          else
            match _previous_volume c1 with
            | Some pv => emit (ApiSetVolume m pv) (put m c1 w)
            | None => emit (ApiSetVolume m 50%Q) (put m c1 w)
            end in
        after_command m w1
  end.

Definition can_transport (c : AlexaClient) : bool :=
  mem (state c) [STATE_PLAYING; STATE_PAUSED] && truthy (available c).

(** [async_media_play]; the call on [self._playing_parent] is a call on
    the entity stored under that key.  The fuel bounds the chain of
    delegations, [None] is a chain longer than the fuel (or a key without
    entity). *)
Fixpoint async_media_play (fuel : nat) (m : string) (w : World) : option World :=
  match fuel with
  | O => None
  | S n =>
      match entities w !! m with
      | None => None
      | Some c =>
          if negb (can_transport c) then Some w
          else
            after_command m <$>
              match _playing_parent c with
              | Some p => async_media_play n p w
              | None => Some (emit (ApiPlay m) w)
              end
      end
  end.

End Scheduler.

(** ** Auxiliary notions of the properties *)

(** Every timer set for [m] was set no later than the last update of [m]. *)
Definition stamped (m : string) (w : World) : Prop :=
  forall s d, CallLater m s d ∈ effects w ->
    exists c t, entities w !! m = Some c /\ _last_update c = Some t /\ s <= t.

(** The player state of an entity is the state of its session. *)
Definition session_coherent (c : AlexaClient) : Prop :=
  forall s, _media_player_state (media c) = Some s ->
    exists pi, _session c = Some pi /\ pi_state pi = Some s.

(** The snapshot after [self.available = True]. *)
Definition marked (c : AlexaClient) : AlexaClient := set_available (Some true) c.

(** The world after the in-place volume update of a player-state event. *)
Definition volume_set (m : string) (z : Z) (w : World) : World :=
  schedule_if_hass m false
    (upd m (set_media_vol_level (Some (Qmake z 100))) (mark_available m w)).

(** ** What a refresh and an update may change

    [touches P F m w w']: from [w] to [w'] only the entity stored under [m]
    changed, in a way related by [F], and the effects added all satisfy
    [P]; the clock and the rest of the account data are as before. *)

Record touches (P : Effect -> Prop) (F : relation AlexaClient) (m : string)
    (w w' : World) : Prop := {
  t_devices : devices w' = devices w;
  t_websocket : websocket w' = websocket w;
  t_commands : websocket_commands w' = websocket_commands w;
  t_last_called : last_called w' = last_called w;
  t_remote : remote w' = remote w;
  t_clock : clock w' = clock w;
  t_others : forall x, x ≠ m -> entities w' !! x = entities w !! x;
  t_self : option_Forall2 F (entities w !! m) (entities w' !! m);
  t_effects : exists t, effects w' = effects w ++ t /\ Forall P t;
}.

(** The effects of a refresh: the session fetch, the members' updates and
    the anomaly warning. *)
Definition refresh_effect (e : Effect) : Prop :=
  match e with
  | ApiGetState _ | GatherUpdate _ | WarnMultipleParents _ => True
  | _ => False
  end.

(** The effects of an update: those of its refresh, the platform's state
    writer and the timers. *)
Definition update_effect (e : Effect) : Prop :=
  match e with
  | ApiGetState _ | GatherUpdate _ | WarnMultipleParents _
  | Refresh _ | ScheduleUpdate _ _ | CallLater _ _ _ => True
  | _ => False
  end.

(** Fields no refresh writes. *)
Definition kept_by_refresh (c c' : AlexaClient) : Prop :=
  enabled c' = enabled c /\ hass c' = hass c /\ entity_id c' = entity_id c
  /\ _previous_volume c' = _previous_volume c
  /\ _should_poll c' = _should_poll c /\ _last_update c' = _last_update c.

(** Fields no update writes. *)
Definition kept_by_update (c c' : AlexaClient) : Prop :=
  enabled c' = enabled c /\ hass c' = hass c /\ entity_id c' = entity_id c
  /\ _previous_volume c' = _previous_volume c.


(** ** A sample account

    A member "M" of the clusters "P1" and "P2"; the remote service reports
    a PLAYING session for "M" and "P1" and none for "P2". *)

Definition sample_bluetooth (s : string) : BluetoothState :=
  {| deviceSerialNumber := s; pairedDeviceList := None |}.

Definition sample_client (s : string) (parents : list string) : AlexaClient :=
  {| enabled := Some true; hass := true; entity_id := Some s;
     _device_serial_number := s; _available := Some true;
     _capabilities := ["MUSIC_SKILL"]; _cluster_members := [];
     _parent_clusters := parents; _app_device_list := ["APP"];
     _bluetooth_state := sample_bluetooth s; _session := None;
     media := cleared; _media_vol_level := Some (Qmake 3 10);
     _previous_volume := None; _source := None; _source_list := [];
     _shuffle := None; _repeat := None; _playing_parent := None;
     _last_called := Some true; _last_called_timestamp := Some 90;
     _should_poll := true; _last_update := Some 100 |}.

Definition sample_listing (s : string) (parents : list string) : Device :=
  {| serialNumber := s; appDeviceList := ["APP"]; online := true;
     capabilities := ["MUSIC_SKILL"]; clusterMembers := [];
     parentClusters := parents; bluetooth_state := sample_bluetooth s |}.

Definition sample_session : PlayerInfo :=
  {| pi_state := Some "PLAYING";
     pi_transport := {[ "shuffle" := "ENABLED"; "repeat" := "SELECTED" ]};
     pi_volume := Some {| volume := Some 30; muted := Some false |};
     pi_lemurVolume := None; pi_isPlayingInLemur := false;
     pi_mediaProgress := Some 12; pi_mediaLength := Some 200;
     pi_title := Some "title"; pi_subText1 := None; pi_subText2 := None;
     pi_mainArt_url := None |}.

(** The account at time 105, with the push channel active or not and the
    given log of push commands. *)
Definition sample_world (ws : bool) (seen : option (gset string)) : World :=
  {| entities := {[ "M" := sample_client "M" ["P1"; "P2"];
                    "P1" := sample_client "P1" [];
                    "P2" := sample_client "P2" [] ]};
     devices := {[ "M" := sample_listing "M" ["P1"; "P2"];
                   "P1" := sample_listing "P1" [];
                   "P2" := sample_listing "P2" [] ]};
     websocket := ws;
     websocket_commands := seen;
     last_called := None;
     remote := fun s => if String.eqb s "P2" then None else Some sample_session;
     clock := 105;
     effects := [] |}.

(** The push channel is active and has delivered an audio event. *)
Definition sample_proven : World :=
  sample_world true (Some {[ "PUSH_AUDIO_PLAYER_STATE" ]}).

(** The push channel is active and has delivered volume changes only. *)
Definition sample_unproven : World :=
  sample_world true (Some {[ "PUSH_VOLUME_CHANGE" ]}).

Definition player_state_event (p : PlayerState) : EventData :=
  {| last_called_change := None; bluetooth_change := None;
     player_state := Some (Some p); queue_state := None;
     push_activity := None |}.

Definition volume_event_40 : EventData :=
  player_state_event
    {| ps_deviceSerialNumber := "M"; audioPlayerState := None;
       mediaReferenceId := None; volumeSetting := Some 40;
       dopplerConnectionState := None |}.

Definition media_event : EventData :=
  player_state_event
    {| ps_deviceSerialNumber := "M"; audioPlayerState := None;
       mediaReferenceId := Some "ref"; volumeSetting := None;
       dopplerConnectionState := None |}.

Definition audio_event : EventData :=
  player_state_event
    {| ps_deviceSerialNumber := "M"; audioPlayerState := Some "PLAYING";
       mediaReferenceId := None; volumeSetting := None;
       dopplerConnectionState := None |}.

Definition foreign_last_called : EventData :=
  {| last_called_change :=
       Some (Some {| lcc_serialNumber := "P1"; lcc_timestamp := 104 |});
     bluetooth_change := None; player_state := None; queue_state := None;
     push_activity := None |}.

(** The sample account after the refresh of "M", 30 seconds on. *)
Definition sample_later : World :=
  set_clock 135
    (refresh "M" (Some (sample_listing "M" ["P1"; "P2"])) false
       (sample_world true None)).


(** ** Further properties of [AlexaClient] *)

Definition MEDIA_TYPE_MUSIC : string := "music".

(** [hidden]: a device without the music skill is hidden. *)
Definition hidden (c : AlexaClient) : bool :=
  negb (mem "MUSIC_SKILL" (_capabilities c)).

Definition media_content_type (c : AlexaClient) : string :=
  if mem (state c) [STATE_PLAYING; STATE_PAUSED] then MEDIA_TYPE_MUSIC
  else STATE_STANDBY.

(** [if self.volume_level == 0: return True]; an unknown level is not 0. *)
Definition is_volume_muted (c : AlexaClient) : bool :=
  match volume_level c with
  | Some v => Qeq_bool v 0%Q
  | None => false
  end.

(** [re.sub(pattern, repl, s)] for a pattern that is one literal
    character. *)
Fixpoint sub_char (a : Ascii.ascii) (repl : string) (s : string) : string :=
  match s with
  | EmptyString => EmptyString
  | String b s' =>
      if Ascii.eqb b a then String.append repl (sub_char a repl s')
      else String b (sub_char a repl s')
  end.

Definition open_paren : Ascii.ascii :=
  Ascii.Ascii false false false true false true false false.

Definition close_paren : Ascii.ascii :=
  Ascii.Ascii true false false true false true false false.

(** [re.sub("\\(", "%28", re.sub("\\)", "%29", url))] *)
Definition escape_parens (url : string) : string :=
  sub_char open_paren "%28" (sub_char close_paren "%29" url).

(** Whether the character [a] occurs in [s]. *)
Fixpoint occurs (a : Ascii.ascii) (s : string) : bool :=
  match s with
  | EmptyString => false
  | String b s' => Ascii.eqb b a || occurs a s'
  end.

(** [media_image_url]: the art URL with its parentheses percent-escaped,
    [None] for a missing or empty URL. *)
Definition media_image_url (c : AlexaClient) : option string :=
  if truthy_str (_media_image_url (media c))
  then escape_parens <$> _media_image_url (media c)
  else None.

Definition media_image_remotely_accessible (c : AlexaClient) : bool :=
  truthy_str (_media_image_url (media c)).

(** ** The first part of a refresh *)

(** The snapshot on which the session part of a refresh works: the
    listing applied and, for an available device, the sources and the
    last-called fields resolved. *)
Definition listed (w : World) (d : option Device) (c0 : AlexaClient) : AlexaClient :=
  let c1 := match d with Some d' => apply_listing d' c0 | None => c0 end in
  if truthy (available c1) then refresh_last_called w (refresh_sources c1) else c1.

(** ** What an event may change *)

(** Every effect but the commands to the remote session. *)
Definition passive_effect (e : Effect) : Prop :=
  match e with
  | ApiPlay _ | ApiSetVolume _ _ => False
  | _ => True
  end.

(** The polling flag is not turned on. *)
Definition no_poll_on (c c' : AlexaClient) : Prop :=
  _should_poll c' = true -> _should_poll c = true.

(** The fields no update writes are kept and the polling flag is not
    turned on. *)
Definition quiet_change (c c' : AlexaClient) : Prop :=
  kept_by_update c c' /\ (_should_poll c' = true -> _should_poll c = true).

(** From [w] to [w'] the registry keeps its keys and no entity has its
    polling flag turned on. *)
Definition polling_stays_off (w w' : World) : Prop :=
  forall x, option_Forall2 no_poll_on (entities w !! x) (entities w' !! x).

(** [advances m w w']: from [w] to [w'] time may have passed, only the
    entity stored under [m] changed, and that quietly, and no command was
    sent to the remote session. *)
Record advances (m : string) (w w' : World) : Prop := {
  a_devices : devices w' = devices w;
  a_websocket : websocket w' = websocket w;
  a_commands : websocket_commands w' = websocket_commands w;
  a_last_called : last_called w' = last_called w;
  a_remote : remote w' = remote w;
  a_clock : clock w <= clock w';
  a_others : forall x, x ≠ m -> entities w' !! x = entities w !! x;
  a_self : option_Forall2 quiet_change (entities w !! m) (entities w' !! m);
  a_effects : exists t, effects w' = effects w ++ t /\ Forall passive_effect t;
}.

(** The world after the in-place availability update of a player-state
    event that carries the connection state [s]. *)
Definition connection_set (m : string) (s : string) (w : World) : World :=
  schedule_if_hass m false
    (upd m (set_available (Some (String.eqb s "ONLINE"))) (mark_available m w)).

(** The player state is one of the three that let a push activity start
    an update. *)
Definition player_state_known (c : AlexaClient) : bool :=
  str_is (_media_player_state (media c)) "PLAYING"
  || str_is (_media_player_state (media c)) "PAUSED"
  || str_is (_media_player_state (media c)) "IDLE".

(** ** Further commands

    The remote operations other than [get_state], [set_volume] and [play]
    are collected, in call order, in a list of their own that the command
    returns beside the world. *)

Inductive RemoteCall :=
| CallPause
| CallNext
| CallPrevious
| CallDisconnectBluetooth
| CallSetBluetooth (address : string)
| CallSendTts (message : string)
| CallSendSequence (media_id : string)
| CallRunRoutine (media_id : string)
| CallPlaySound (media_id : string)
| CallPlayMusic (media_type media_id : string).

Section FurtherCommands.

(** The value of [PLAY_SCAN_INTERVAL]. *)
Variable interval : Z.

(** [async_media_pause], [async_media_next_track] and
    [async_media_previous_track] are one text up to the remote operation
    [op] and the method called on [self._playing_parent], which is the
    same method of the parent. *)
Fixpoint transport (op : RemoteCall) (fuel : nat) (m : string) (w : World)
    : option (World * list (string * RemoteCall)) :=
  match fuel with
  | O => None
  | S n =>
      match entities w !! m with
      | None => None
      | Some c =>
          if negb (can_transport c) then Some (w, [])
          else
            match
              match _playing_parent c with
              | Some p => transport op n p w
              | None => Some (w, [(m, op)])
              end
            with
            | Some (w1, calls) => Some (after_command interval m w1, calls)
            | None => None
            end
      end
  end.

Definition async_media_pause := transport CallPause.
Definition async_media_next_track := transport CallNext.
Definition async_media_previous_track := transport CallPrevious.

(** [self._should_poll = False; await self.async_media_pause();
     await self._clear_media_details()] *)
Definition async_turn_off (fuel : nat) (m : string) (w : World)
    : option (World * list (string * RemoteCall)) :=
  match async_media_pause fuel m (upd m (set_should_poll false) w) with
  | Some (w1, calls) => Some (upd m _clear_media_details w1, calls)
  | None => None
  end.

(** [self._should_poll = True; await self.async_media_pause()] *)
Definition async_turn_on (fuel : nat) (m : string) (w : World)
    : option (World * list (string * RemoteCall)) :=
  async_media_pause fuel m (upd m (set_should_poll true) w).

(** The [for] loop of [async_select_source] over the paired devices: every
    device with the friendly name [source] is connected in turn. *)
Definition select_paired (m : string) (source : string) (l : list PairedDevice)
    : list (string * RemoteCall) :=
  (fun d => (m, CallSetBluetooth (address d))) <$>
    List.filter (fun d => String.eqb (friendlyName d) source) l.

Definition async_select_source (m : string) (source : string) (w : World)
    : World * list (string * RemoteCall) :=
  match entities w !! m with
  | None => (w, [])
  | Some c =>
      let '(w1, calls) :=
        if String.eqb source "Local Speaker"
        then (upd m (set_source (Some "Local Speaker")) w,
              [(m, CallDisconnectBluetooth)])
        else
          match select_paired m source (paired c) with
          | [] => (w, [])
          | calls => (upd m (set_source (Some source)) w, calls)
          end in
      (after_command interval m w1, calls)
  end.

Definition tts_guidance : string :=
  "Sorry, text to speech can only be called with the notify.alexa_media service. Please see the alexa_media wiki for details.".

(** [async_play_media]: the routing by [media_type]. *)
Definition media_call (media_type media_id : string) : RemoteCall :=
  if String.eqb media_type "music" then CallSendTts tts_guidance
  else if String.eqb media_type "sequence" then CallSendSequence media_id
  else if String.eqb media_type "routine" then CallRunRoutine media_id
  else if String.eqb media_type "sound" then CallPlaySound media_id
  else CallPlayMusic media_type media_id.

Definition async_play_media (m : string) (media_type media_id : string)
    (w : World) : World * list (string * RemoteCall) :=
  (after_command interval m w, [(m, media_call media_type media_id)]).

End FurtherCommands.

(** ** Further sample data *)

(** The listing of "M" while it is offline. *)
Definition offline_listing : Device :=
  {| serialNumber := "M"; appDeviceList := ["APP"]; online := false;
     capabilities := ["MUSIC_SKILL"]; clusterMembers := [];
     parentClusters := ["P1"; "P2"];
     bluetooth_state := sample_bluetooth "M" |}.


(** The listing of a device without the music skill. *)
Definition hidden_listing : Device :=
  {| serialNumber := "M"; appDeviceList := ["APP"]; online := true;
     capabilities := ["PAIR_BT_SOURCE"]; clusterMembers := [];
     parentClusters := ["P1"; "P2"];
     bluetooth_state := sample_bluetooth "M" |}.

(** The sample account with a PLAYING session for every device, after the
    updates of "P1" and "P2": both parent clusters of "M" are PLAYING. *)
Definition sample_both (interval : Z) : World :=
  async_update interval "P2"
    (async_update interval "P1"
       {| entities := entities sample_proven; devices := devices sample_proven;
          websocket := true;
          websocket_commands := websocket_commands sample_proven;
          last_called := None; remote := fun _ => Some sample_session;
          clock := 105; effects := [] |}).

Definition own_last_called : EventData :=
  {| last_called_change :=
       Some (Some {| lcc_serialNumber := "APP"; lcc_timestamp := 104 |});
     bluetooth_change := None; player_state := None; queue_state := None;
     push_activity := None |}.

Definition sample_paired : BluetoothState :=
  {| deviceSerialNumber := "M";
     pairedDeviceList :=
       Some [ {| connected := true; friendlyName := "Phone";
                 profiles := ["A2DP-SOURCE"]; address := "00:11" |};
              {| connected := false; friendlyName := "Watch";
                 profiles := ["HFP"]; address := "00:22" |} ] |}.

Definition paired_event : EventData :=
  {| last_called_change := None; bluetooth_change := Some (Some sample_paired);
     player_state := None; queue_state := None; push_activity := None |}.

Definition offline_event : EventData :=
  player_state_event
    {| ps_deviceSerialNumber := "M"; audioPlayerState := None;
       mediaReferenceId := None; volumeSetting := None;
       dopplerConnectionState := Some "OFFLINE" |}.

Definition sample_queue : QueueState :=
  {| qs_deviceSerialNumber := "M"; trackOrderChanged := Some false;
     loopMode := Some "LOOP_QUEUE"; playBackOrder := Some "SHUFFLE_ALL" |}.

Definition loop_event : EventData :=
  {| last_called_change := None; bluetooth_change := None;
     player_state := None; queue_state := Some (Some sample_queue);
     push_activity := None |}.

Definition push_event_P1 : EventData :=
  {| last_called_change := None; bluetooth_change := None;
     player_state := None; queue_state := None;
     push_activity := Some (Some "P1") |}.

(** The entity registered under [m], for reading a sample world. *)
Definition sample_entity (m : string) (w : World) : AlexaClient :=
  default (sample_client m []) (entities w !! m).

(** The sample account with "M" marked as not available. *)
Definition sample_offline : World :=
  upd "M" (set_available (Some false)) sample_proven.


(** The sample account without a push channel, after the refresh of "M":
    the member plays on its own. *)
Definition sample_polled : World :=
  refresh "M" (Some (sample_listing "M" ["P1"; "P2"])) false
    (sample_world false None).


(** A device showing cover art whose URL holds parentheses. *)
Definition sample_art : AlexaClient :=
  set_media
    {| _media_duration := Some 200;
       _media_image_url := Some "http://art/cover(1).jpg";
       _media_title := Some "title"; _media_pos := Some 12;
       _media_album_name := None; _media_artist := None;
       _media_player_state := Some "PLAYING"; _media_is_muted := Some false |}
    (sample_client "M" []).

(** A device that can pair bluetooth sources, with the two paired devices
    of [sample_paired]. *)
Definition sample_speaker : AlexaClient :=
  set_bluetooth_state sample_paired
    (apply_listing hidden_listing (sample_client "M" [])).

(** The session of a cluster that plays with its members: the compound
    volume is 60 and the member "M" is at 45. *)
Definition sample_group_session : PlayerInfo :=
  {| pi_state := Some "PLAYING"; pi_transport := ∅;
     pi_volume := Some {| volume := Some 50; muted := Some false |};
     pi_lemurVolume :=
       Some {| compositeVolume := Some {| volume := Some 60; muted := Some false |};
               memberVolume := {[ "M" := {| volume := Some 45;
                                            muted := Some false |} ]} |};
     pi_isPlayingInLemur := true;
     pi_mediaProgress := None; pi_mediaLength := None;
     pi_title := None; pi_subText1 := None; pi_subText2 := None;
     pi_mainArt_url := None |}.

(** An event without any of the keys the handler reads. *)
Definition empty_event : EventData :=
  {| last_called_change := None; bluetooth_change := None;
     player_state := None; queue_state := None; push_activity := None |}.

(** * Properties *)

(** ** The object store *)

Section Store.

Implicit Types (w : World) (c : AlexaClient) (m x : string) (e : Effect).

Lemma entities_put m c w : entities (put m c w) = <[m:=c]> (entities w).
Proof. reflexivity. Qed.

Lemma entities_upd m f w : entities (upd m f w) = alter f m (entities w).
Proof. reflexivity. Qed.

Lemma entities_emit e w : entities (emit e w) = entities w.
Proof. reflexivity. Qed.

Lemma entities_emits l w : entities (emits l w) = entities w.
Proof. reflexivity. Qed.

Lemma lookup_put m c w : entities (put m c w) !! m = Some c.
Proof. rewrite entities_put. apply lookup_insert_eq. Qed.

Lemma lookup_put_ne m x c w : m ≠ x -> entities (put m c w) !! x = entities w !! x.
Proof. intros. rewrite entities_put. by apply lookup_insert_ne. Qed.

Lemma lookup_upd m f w : entities (upd m f w) !! m = f <$> entities w !! m.
Proof. rewrite entities_upd. apply lookup_alter_eq. Qed.

Lemma lookup_upd_ne m x f w : m ≠ x -> entities (upd m f w) !! x = entities w !! x.
Proof. intros. rewrite entities_upd. by apply lookup_alter_ne. Qed.

(** Writing a field of a stored entity is storing the changed entity. *)
Lemma upd_put m f c w : entities w !! m = Some c -> upd m f w = put m (f c) w.
Proof.
  intros H. unfold upd, put. f_equal. apply map_eq. intros x.
  destruct (decide (m = x)) as [<-|Hne].
  - by rewrite lookup_alter_eq, lookup_insert_eq, H.
  - by rewrite lookup_alter_ne, lookup_insert_ne.
Qed.

Lemma put_put m c c' w : put m c' (put m c w) = put m c' w.
Proof. unfold put, set_entities. cbn. by rewrite insert_insert_eq. Qed.

End Store.

(** ** What a refresh and an update may change *)

Section Touches.

Context (P : Effect -> Prop) (F : relation AlexaClient).
Context `{!Reflexive F, !Transitive F}.

Lemma touches_refl m w : touches P F m w w.
Proof.
  split; [done..| |].
  - reflexivity.
  - exists []. by rewrite app_nil_r.
Qed.

Lemma touches_trans m w1 w2 w3 :
  touches P F m w1 w2 -> touches P F m w2 w3 -> touches P F m w1 w3.
Proof.
  intros [? ? ? ? ? ? Ho1 Hs1 (t1 & He1 & Ht1)] [? ? ? ? ? ? Ho2 Hs2 (t2 & He2 & Ht2)].
  split; [congruence..| | |].
  - intros x Hx. by rewrite Ho2, Ho1.
  - destruct Hs1 as [c1 c2 H12|]; inversion Hs2 as [c2' c3 H23|]; subst;
      constructor. by etrans.
  - exists (t1 ++ t2). split; [|by apply Forall_app].
    by rewrite He2, He1, app_assoc.
Qed.

Lemma touches_put m c c' w :
  entities w !! m = Some c -> F c c' -> touches P F m w (put m c' w).
Proof.
  intros Hm HF. split; [done..| | |].
  - intros x Hx. by rewrite lookup_put_ne.
  - rewrite Hm, lookup_put. by constructor.
  - exists []. by rewrite app_nil_r.
Qed.

Lemma touches_upd m f w :
  (forall c, F c (f c)) -> touches P F m w (upd m f w).
Proof.
  intros HF. split; [done..| | |].
  - intros x Hx. by rewrite lookup_upd_ne.
  - rewrite lookup_upd. destruct (entities w !! m); by constructor.
  - exists []. by rewrite app_nil_r.
Qed.

Lemma touches_emits m l w : Forall P l -> touches P F m w (emits l w).
Proof.
  intros Hl. split; [done..| |].
  - rewrite entities_emits. reflexivity.
  - by exists l.
Qed.

Lemma touches_emit m e w : P e -> touches P F m w (emit e w).
Proof. intros He. apply (touches_emits m [e]). by constructor. Qed.

End Touches.

Lemma touches_weaken (P P' : Effect -> Prop) (F F' : relation AlexaClient) m w w' :
  (forall e, P e -> P' e) -> (forall c c', F c c' -> F' c c') ->
  touches P F m w w' -> touches P' F' m w w'.
Proof.
  intros HP HF [? ? ? ? ? ? Ho Hs (t & He & Ht)]. split; [done..| |].
  - destruct Hs; constructor; auto.
  - exists t. split; [done|]. eapply Forall_impl; eauto.
Qed.

#[local] Instance kept_by_refresh_refl : Reflexive kept_by_refresh.
Proof. by intros c. Qed.

#[local] Instance kept_by_refresh_trans : Transitive kept_by_refresh.
Proof. intros c1 c2 c3 (?&?&?&?&?&?) (?&?&?&?&?&?). repeat split; congruence. Qed.

#[local] Instance kept_by_update_refl : Reflexive kept_by_update.
Proof. by intros c. Qed.

#[local] Instance kept_by_update_trans : Transitive kept_by_update.
Proof. intros c1 c2 c3 (?&?&?&?) (?&?&?&?). repeat split; congruence. Qed.

Lemma apply_session_kept s c : kept_by_refresh c (apply_session s c).
Proof.
  unfold apply_session, populate. repeat case_match; by repeat split.
Qed.

Lemma refresh_sources_kept c : kept_by_refresh c (refresh_sources c).
Proof. unfold refresh_sources. case_match; by repeat split. Qed.

Lemma refresh_last_called_kept w c : kept_by_refresh c (refresh_last_called w c).
Proof. unfold refresh_last_called. case_match; by repeat split. Qed.

Lemma apply_listing_kept d c : kept_by_refresh c (apply_listing d c).
Proof. by repeat split. Qed.

(** [touch] follows the shape of the final world: each write of a kept
    field and each allowed effect is one more link of the chain. *)
Ltac touch_with tac :=
  lazymatch goal with
  | |- touches _ _ _ ?w ?w => apply touches_refl; apply _
  | |- touches _ _ _ _ (emit _ _) =>
      eapply touches_trans;
        [apply _ | | apply touches_emit; [apply _ | exact I]];
      touch_with tac
  | |- touches _ _ _ _ (upd _ _ _) =>
      eapply touches_trans;
        [apply _ | | apply touches_upd; intros ?; by repeat split];
      touch_with tac
  | |- _ => first [eassumption | tac; touch_with tac]
  end.

Lemma finish_refresh_touches m s w :
  touches refresh_effect kept_by_refresh m w (finish_refresh m s w).
Proof.
  unfold finish_refresh. destruct (entities w !! m) as [c|] eqn:Hm.
  - eapply touches_trans; [apply _| |].
    + eapply touches_put; [done | apply apply_session_kept].
    + apply touches_emits; [apply _|]. unfold gather_members.
      repeat case_match; try by constructor.
      apply Forall_fmap, Forall_true. by intros x.
  - apply touches_refl; apply _.
Qed.

Lemma own_session_touches m w :
  touches refresh_effect kept_by_refresh m w (own_session m w).
Proof.
  unfold own_session.
  eapply touches_trans; [apply _ | | apply finish_refresh_touches].
  touch_with fail.
Qed.

Ltac touch_refresh :=
  touch_with ltac:(
    eapply touches_trans;
      [apply _ | | first [apply finish_refresh_touches | apply own_session_touches]]).

Lemma refresh_touches m d s w :
  touches refresh_effect kept_by_refresh m w (refresh m d s w).
Proof.
  unfold refresh. destruct (entities w !! m) as [c0|] eqn:Hm;
    [|apply touches_refl; apply _].
  set (c1 := match d with Some d' => apply_listing d' c0 | None => c0 end).
  assert (kept_by_refresh c0 c1) as H1.
  { subst c1. destruct d; [apply apply_listing_kept | done]. }
  destruct (negb (truthy (available c1))).
  { eapply touches_trans; [apply _| |apply finish_refresh_touches].
    by eapply touches_put. }
  set (c2 := refresh_last_called w (refresh_sources c1)).
  assert (kept_by_refresh c0 c2) as H2.
  { etrans; [done|]. etrans; [apply refresh_sources_kept|].
    apply refresh_last_called_kept. }
  assert (touches refresh_effect kept_by_refresh m w (put m c2 w)) as Hw2
    by by eapply touches_put.
  destruct s; [done|].
  destruct (negb (mem "MUSIC_SKILL" (_capabilities c2))); [touch_refresh|].
  destruct (playing_parents (put m c2 w) c2) as [|p [|p' rest]];
    [|case_match..]; touch_refresh.
Qed.

Section Updates.

(** The value of [PLAY_SCAN_INTERVAL]. *)
Variable interval : Z.

Lemma schedule_poll_touches m seen w :
  touches update_effect kept_by_update m w (schedule_poll interval m seen w).
Proof.
  unfold schedule_poll. destruct (entities w !! m) as [c|];
    [|apply touches_refl; apply _].
  repeat case_match; touch_with fail.
Qed.

Lemma refresh_touches_update m d s w :
  touches update_effect kept_by_update m w (refresh m d s w).
Proof.
  eapply touches_weaken; [| |apply refresh_touches].
  - by intros [].
  - intros c c' (?&?&?&?&?&?). by repeat split.
Qed.

Lemma async_update_touches m w :
  touches update_effect kept_by_update m w (async_update interval m w).
Proof.
  unfold async_update.
  repeat case_match; try (apply touches_refl; apply _).
  eapply touches_trans; [apply _ | | apply schedule_poll_touches].
  eapply touches_trans; [apply _ | | apply refresh_touches_update].
  touch_with fail.
Qed.

(** An update leaves the clock alone and only appends effects, none of
    them a command to the remote session or a sleep. *)
Lemma async_update_effects m w :
  clock (async_update interval m w) = clock w /\
  exists t, effects (async_update interval m w) = effects w ++ t /\ Forall update_effect t.
Proof. destruct (async_update_touches m w). by split. Qed.

End Updates.

(** ** The event handler *)

Section Handler.

(** The value of [PLAY_SCAN_INTERVAL]. *)
Variable interval : Z.

Implicit Types (w : World) (c : AlexaClient) (m sn : string) (ev : EventData).

Lemma mark_available_put m c w :
  entities w !! m = Some c ->
  mark_available m w = emit (ScheduleUpdate m false) (put m (marked c) w).
Proof. intros Hm. unfold mark_available. by rewrite (upd_put m _ c). Qed.

Lemma lookup_mark_available m c w :
  entities w !! m = Some c ->
  entities (mark_available m w) !! m = Some (marked c).
Proof.
  intros Hm. rewrite (mark_available_put m c) by done.
  by rewrite entities_emit, lookup_put.
Qed.

Lemma handle_event_dispatch m ev sn w c :
  entities w !! m = Some c -> enabled c ≠ Some false ->
  event_serial ev = Some sn -> sn ≠ "" ->
  _handle_event interval m ev w = dispatch interval m ev sn (mark_available m w).
Proof.
  intros Hm Hen Hsn Hne. unfold _handle_event. rewrite Hm, Hsn.
  rewrite bool_decide_eq_false_2 by done.
  by apply String.eqb_neq in Hne as ->.
Qed.

Lemma is_for_marked c sn : is_for (marked c) sn = is_for c sn.
Proof. reflexivity. Qed.

Lemma schedule_if_hass_entities m b w :
  entities (schedule_if_hass m b w) = entities w.
Proof. unfold schedule_if_hass. by repeat case_match. Qed.

Lemma on_queue_state_foreign m v sn b w c :
  entities w !! m = Some c -> sn ≠ _device_serial_number c ->
  on_queue_state interval m v sn b w = w.
Proof.
  intros Hm Hne. unfold on_queue_state. rewrite Hm.
  destruct v; [|done]. unfold is_for. by apply String.eqb_neq in Hne as ->.
Qed.

(** C10.  Whenever the handler extracts a non-empty serial from an event
    (an enabled entity; any of the five shapes), it sets the availability
    flag to true and only then runs the branches that compare the serial:
    the handler is [dispatch] run on the marked world.  The serial need not
    be this device's: for a foreign serial in a last-called, bluetooth,
    player-state or queue-state event the flag is still true when the
    handler returns. *)
Theorem handle_event_marks_available m ev sn w c :
  entities w !! m = Some c -> enabled c ≠ Some false ->
  event_serial ev = Some sn -> sn ≠ "" ->
  _handle_event interval m ev w = dispatch interval m ev sn (mark_available m w)
  /\ available <$> entities (mark_available m w) !! m = Some (Some true)
  /\ (sn ≠ _device_serial_number c -> push_activity ev = None ->
      available <$> entities (_handle_event interval m ev w) !! m
      = Some (Some true)).
Proof.
  intros Hm Hen Hsn Hne.
  pose proof (lookup_mark_available m c w Hm) as Hmk.
  split; [by eapply handle_event_dispatch|]. split; [by rewrite Hmk|].
  intros Hfor Hpush. erewrite handle_event_dispatch by done.
  assert (is_for (marked c) sn = false) as Hnot
    by (unfold is_for; by apply String.eqb_neq).
  unfold dispatch.
  destruct (last_called_change ev) as [v|].
  { unfold on_last_called. rewrite Hmk, Hnot.
    assert (mem sn (_app_device_list (marked c)) = mem sn (_app_device_list c))
      as -> by done.
    set (w1 := schedule_if_hass _ _ _).
    assert (available <$> entities w1 !! m = Some (Some true)) as H1.
    { subst w1. rewrite schedule_if_hass_entities, lookup_put.
      by destruct (mem sn _). }
    destruct (queue_state ev); [|done].
    destruct (entities w1 !! m) as [c1|] eqn:Hc1; [|done].
    erewrite on_queue_state_foreign; [by rewrite Hc1|done|].
    subst w1. rewrite schedule_if_hass_entities, lookup_put in Hc1.
    injection Hc1 as <-. by destruct (mem sn _). }
  assert (forall b, available <$>
            entities (match queue_state ev with
                      | Some v => on_queue_state interval m v sn b (mark_available m w)
                      | None => mark_available m w
                      end) !! m = Some (Some true)) as Hq.
  { intros b. destruct (queue_state ev).
    - erewrite on_queue_state_foreign; [by rewrite Hmk|done|done].
    - by rewrite Hmk. }
  destruct (bluetooth_change ev) as [v|].
  { unfold on_bluetooth. rewrite Hmk. destruct v; rewrite ?Hnot; by apply Hq. }
  destruct (player_state ev) as [v|].
  { unfold on_player_state. rewrite Hmk. destruct v; rewrite ?Hnot; by apply Hq. }
  rewrite Hpush. by apply Hq.
Qed.

(** C6 (amended).  A last-called event with a non-empty serial that is
    neither this device's nor one of its app devices' sets the last-called
    flag to false and leaves the last-called timestamp as it was. *)
Theorem last_called_foreign m ev lcc w c :
  entities w !! m = Some c -> enabled c ≠ Some false ->
  last_called_change ev = Some (Some lcc) ->
  lcc_serialNumber lcc ≠ "" ->
  lcc_serialNumber lcc ≠ _device_serial_number c ->
  lcc_serialNumber lcc ∉ _app_device_list c ->
  exists c', entities (_handle_event interval m ev w) !! m = Some c'
    /\ _last_called c' = Some false
    /\ _last_called_timestamp c' = _last_called_timestamp c.
Proof.
  intros Hm Hen Hev Hne Hfor Happ.
  assert (event_serial ev = Some (lcc_serialNumber lcc)) as Hsn
    by (unfold event_serial; by rewrite Hev).
  erewrite handle_event_dispatch by done.
  pose proof (lookup_mark_available m c w Hm) as Hmk.
  unfold dispatch. rewrite Hev. unfold on_last_called. rewrite Hmk.
  assert (is_for (marked c) (lcc_serialNumber lcc) = false) as ->
    by (unfold is_for; by apply String.eqb_neq).
  assert (mem (lcc_serialNumber lcc) (_app_device_list (marked c)) = false)
    as -> by (by apply bool_decide_eq_false_2).
  cbn [orb]. set (w1 := schedule_if_hass _ _ _).
  assert (entities w1 !! m = Some (set_last_called (Some false) (marked c)))
    as H1 by (subst w1; by rewrite schedule_if_hass_entities, lookup_put).
  exists (set_last_called (Some false) (marked c)). split; [|done].
  destruct (queue_state ev); [|done].
  by erewrite on_queue_state_foreign.
Qed.

Lemma dispatch_player_state m ev p w c :
  entities w !! m = Some c ->
  last_called_change ev = None -> bluetooth_change ev = None ->
  player_state ev = Some (Some p) -> queue_state ev = None ->
  ps_deviceSerialNumber p = _device_serial_number c ->
  dispatch interval m ev (ps_deviceSerialNumber p) (mark_available m w)
  = (on_player_state interval m (Some p) (_device_serial_number c)
       (mark_available m w)).1.
Proof.
  intros Hm H1 H2 H3 H4 Hp. unfold dispatch. rewrite H1, H2, H3, H4, Hp.
  by destruct (on_player_state _ _ _ _ _).
Qed.

Lemma is_for_own c : is_for c (_device_serial_number c) = true.
Proof. apply String.eqb_refl. Qed.

(** C3 (amended).  A player-state event for this device that carries a
    volume setting and neither an audio player state nor a media reference
    sets the volume field to [value / 100] in place, calling nothing but
    the platform's state writer.  The handler then stops there when the
    account's log of push commands is missing, empty or holds one of the
    three audio kinds; otherwise it goes on with a full update. *)
Theorem volume_event m ev p z w c :
  entities w !! m = Some c -> enabled c ≠ Some false ->
  last_called_change ev = None -> bluetooth_change ev = None ->
  player_state ev = Some (Some p) -> queue_state ev = None ->
  ps_deviceSerialNumber p = _device_serial_number c ->
  _device_serial_number c ≠ "" ->
  audioPlayerState p = None -> mediaReferenceId p = None ->
  volumeSetting p = Some z ->
  _media_vol_level <$> entities (volume_set m z w) !! m
    = Some (Some (Qmake z 100))
  /\ (exists t, effects (volume_set m z w) = effects w ++ t
            /\ Forall (fun e => e = ScheduleUpdate m false) t)
  /\ _handle_event interval m ev w
     = if seen_without_audio (websocket_commands w)
       then async_update interval m (volume_set m z w)
       else volume_set m z w.
Proof.
  intros Hm Hen H1 H2 H3 H4 Hp Hne Ha Hr Hz.
  pose proof (lookup_mark_available m c w Hm) as Hmk.
  split; [|split].
  - unfold volume_set. by rewrite schedule_if_hass_entities, lookup_upd, Hmk.
  - unfold volume_set, schedule_if_hass. rewrite lookup_upd, Hmk. cbn [fmap option_fmap option_map].
    destruct (hass _).
    + exists [ScheduleUpdate m false; ScheduleUpdate m false]. split.
      * cbn. by rewrite <- app_assoc.
      * by repeat constructor.
    + exists [ScheduleUpdate m false]. split; [done | by repeat constructor].
  - assert (event_serial ev = Some (ps_deviceSerialNumber p)) as Hsn
      by (unfold event_serial; by rewrite H1, H2, H3).
    erewrite handle_event_dispatch; [|done..|by rewrite Hp].
    erewrite dispatch_player_state by done.
    unfold on_player_state. rewrite Hmk, is_for_marked, is_for_own, Ha, Hr, Hz.
    cbn [isSome fst]. fold (volume_set m z w).
    unfold _refresh_if_no_audiopush. cbn [negb andb].
    assert (websocket_commands (volume_set m z w) = websocket_commands w) as ->.
    { unfold volume_set, schedule_if_hass. by repeat case_match. }
    by destruct (seen_without_audio _).
Qed.

(** C4 (amended).  A player-state event for this device that carries an
    audio player state makes the handler sleep 2 seconds and then run the
    full update: the sleep is in the trace before anything the update
    does, and the update runs with the clock 2 later.  An event that
    carries a media reference and no audio player state runs the update at
    once: nothing sleeps and the clock is the one of the event. *)
Theorem player_state_refresh m ev p w c :
  entities w !! m = Some c -> enabled c ≠ Some false ->
  last_called_change ev = None -> bluetooth_change ev = None ->
  player_state ev = Some (Some p) -> queue_state ev = None ->
  ps_deviceSerialNumber p = _device_serial_number c ->
  _device_serial_number c ≠ "" ->
  (isSome (audioPlayerState p) = true ->
     _handle_event interval m ev w
       = async_update interval m (sleep 2 (mark_available m w))
     /\ clock (_handle_event interval m ev w) = clock w + 2
     /\ exists t, effects (_handle_event interval m ev w)
                  = effects w ++ ScheduleUpdate m false :: Sleep 2 :: t
               /\ Forall update_effect t)
  /\ (isSome (audioPlayerState p) = false ->
      isSome (mediaReferenceId p) = true ->
     _handle_event interval m ev w
       = async_update interval m (mark_available m w)
     /\ clock (_handle_event interval m ev w) = clock w
     /\ exists t, effects (_handle_event interval m ev w)
                  = effects w ++ ScheduleUpdate m false :: t
               /\ Forall update_effect t).
Proof.
  intros Hm Hen H1 H2 H3 H4 Hp Hne.
  pose proof (lookup_mark_available m c w Hm) as Hmk.
  assert (event_serial ev = Some (ps_deviceSerialNumber p)) as Hsn
    by (unfold event_serial; by rewrite H1, H2, H3).
  assert (_handle_event interval m ev w
          = (on_player_state interval m (Some p) (_device_serial_number c)
               (mark_available m w)).1) as ->.
  { erewrite handle_event_dispatch; [|done..|by rewrite Hp].
    by erewrite dispatch_player_state. }
  unfold on_player_state. rewrite Hmk, is_for_marked, is_for_own.
  split.
  - intros ->. cbn [fst]. unfold _refresh_if_no_audiopush. cbn [negb andb].
    destruct (async_update_effects interval m (sleep 2 (mark_available m w)))
      as (Hc & t & He & Ht).
    split; [done|]. split; [by rewrite Hc|].
    exists t. split; [|done]. rewrite He. cbn.
    by rewrite <- !app_assoc.
  - intros -> ->. cbn [fst]. unfold _refresh_if_no_audiopush. cbn [negb andb].
    destruct (async_update_effects interval m (mark_available m w))
      as (Hc & t & He & Ht).
    split; [done|]. split; [by rewrite Hc|].
    exists t. split; [|done]. rewrite He. cbn.
    by rewrite <- !app_assoc.
Qed.

End Handler.

(** ** The poll scheduler *)

Section PollScheduler.

(** The value of [PLAY_SCAN_INTERVAL]. *)
Variable interval : Z.

Implicit Types (w : World) (c : AlexaClient) (m : string).

(** C5 (amended).  After a refresh that leaves the device PLAYING while the
    push channel is inactive or unproven, the scheduler clears the
    platform's polling flag, and it schedules one forced-refresh timer at
    the play-scan interval exactly when the last update is the [0] stamp
    or lies more than one interval back; otherwise it schedules none.
    With every timer of the device set no later than its last update, a
    new timer is set only when all play-scan timers set before are past
    due, and that stays so after the update. *)
Theorem play_scan_schedule m seen w c :
  entities w !! m = Some c ->
  state c = STATE_PLAYING ->
  negb (websocket w) || push_unproven seen = true ->
  (_should_poll <$> entities (schedule_poll interval m seen w) !! m = Some false)
  /\ effects (schedule_poll interval m seen w)
     = effects w
       ++ (if scan_due interval (clock w) (_last_update c)
           then [CallLater m (clock w) interval] else [])
       ++ [ScheduleUpdate m false]
  /\ (stamped m w -> scan_due interval (clock w) (_last_update c) = true ->
      forall s d, CallLater m s d ∈ effects w -> d <= interval ->
                  s + d < clock w)
  /\ (stamped m w -> (forall t, _last_update c = Some t -> t <= clock w) ->
      stamped m (schedule_poll interval m seen w)).
Proof.
  intros Hm Hst Hpush.
  assert (schedule_poll interval m seen w
          = emit (ScheduleUpdate m false)
              (upd m (set_last_update (Some (clock w)))
                 (let w' := upd m (set_should_poll false) w in
                  if scan_due interval (clock w) (_last_update c)
                  then emit (CallLater m (clock w) interval) w' else w'))) as ->.
  { unfold schedule_poll. rewrite Hm, Hst, Hpush. by rewrite String.eqb_refl. }
  cbn zeta. split; [|split; [|split]].
  - rewrite entities_emit, lookup_upd.
    destruct (scan_due _ _ _); by rewrite ?entities_emit, lookup_upd, Hm.
  - destruct (scan_due _ _ _); cbn; by rewrite <- ?app_assoc.
  - intros Hinv Hdue s d Hin Hd.
    apply Hinv in Hin as (c' & t & Hc' & Ht & Hs).
    assert (c' = c) as -> by congruence.
    unfold scan_due in Hdue. rewrite Ht in Hdue. lia.
  - intros Hinv Hmono s d Hin.
    exists (set_last_update (Some (clock w)) (set_should_poll false c)), (clock w).
    split; [|split; [done|]].
    { rewrite entities_emit, lookup_upd.
      destruct (scan_due _ _ _); by rewrite ?entities_emit, lookup_upd, Hm. }
    assert (CallLater m s d ∈ effects w \/ s = clock w) as [Hold| ->]; [|..|lia].
    { destruct (scan_due _ _ _); cbn in Hin;
        repeat (apply elem_of_app in Hin as [Hin|Hin%list_elem_of_singleton]);
        try done; auto.
      right. congruence. }
    apply Hinv in Hold as (c' & t & Hc' & Ht & Hs).
    assert (c' = c) as -> by congruence. specialize (Hmono t Ht). lia.
Qed.

(** The stamping of the timers is kept by the refresh, which sets no timer
    and leaves the last update alone, and by every branch of the
    scheduler; so it is kept by the whole update. *)
Lemma touches_stamped m w w' :
  touches refresh_effect kept_by_refresh m w w' -> stamped m w -> stamped m w'.
Proof.
  intros [_ _ _ _ _ _ _ Hself (t & He & Ht)] Hst s d Hin.
  rewrite He in Hin. apply elem_of_app in Hin as [Hin|Hin].
  - apply Hst in Hin as (c & u & Hc & Hu & Hs). rewrite Hc in Hself.
    inversion Hself as [? c' Hk|]; subst. exists c', u.
    destruct Hk as (_ & _ & _ & _ & _ & ->). done.
  - by apply (proj1 (Forall_forall _ _) Ht) in Hin.
Qed.

Lemma schedule_poll_stamped m seen w :
  stamped m w ->
  (forall c t, entities w !! m = Some c -> _last_update c = Some t -> t <= clock w) ->
  stamped m (schedule_poll interval m seen w).
Proof.
  intros Hinv Hmono. unfold schedule_poll.
  destruct (entities w !! m) as [c|] eqn:Hm; [|done].
  intros s d Hin. set (w1 := if _ && _ then _ else _) in Hin.
  assert (entities w1 !! m = Some (set_should_poll false c)
          \/ entities w1 !! m = Some c) as Hw1.
  { subst w1. repeat case_match;
      rewrite ?entities_emit, ?lookup_upd, ?Hm; auto. }
  assert (CallLater m s d ∈ effects w1 -> CallLater m s d ∈ effects w \/ s = clock w)
    as Hold.
  { subst w1. repeat case_match; cbn; intros Hx;
      repeat (apply elem_of_app in Hx as [Hx|Hx%list_elem_of_singleton]);
      auto; right; congruence. }
  cbn in Hin. apply elem_of_app in Hin as [Hin|Hin%list_elem_of_singleton];
    [|done].
  assert (exists c', entities (emit (ScheduleUpdate m false)
                               (upd m (set_last_update (Some (clock w))) w1)) !! m
                     = Some c' /\ _last_update c' = Some (clock w))
    as (c' & Hc' & Hlu).
  { rewrite entities_emit, lookup_upd. destruct Hw1 as [-> | ->]; by eexists. }
  exists c', (clock w). split; [done|]. split; [done|].
  destruct (Hold Hin) as [Hw| ->]; [|lia].
  apply Hinv in Hw as (c0 & t & Hc0 & Ht & Hs).
  rewrite Hm in Hc0. specialize (Hmono c0 t Hc0 Ht). lia.
Qed.

Lemma async_update_stamped m w :
  stamped m w ->
  (forall c t, entities w !! m = Some c -> _last_update c = Some t -> t <= clock w) ->
  stamped m (async_update interval m w).
Proof.
  intros Hinv Hmono. unfold async_update.
  destruct (entities w !! m) as [c|] eqn:Hm; [|done].
  destruct (bool_decide _); [done|]. destruct (negb _); [done|].
  destruct (devices w !! _) as [d|]; [|done].
  set (w0 := emit (Refresh m) w).
  assert (stamped m w0) as Hw0.
  { intros s d' Hin. cbn in Hin.
    apply elem_of_app in Hin as [Hin|Hin%list_elem_of_singleton]; [|done].
    exact (Hinv _ _ Hin). }
  pose proof (refresh_touches m (Some d) false w0) as Ht.
  apply schedule_poll_stamped; [by eapply touches_stamped|].
  intros c' t Hc' Hlu. destruct Ht as [_ _ _ _ _ Hck _ Hself _].
  rewrite Hck. subst w0. rewrite entities_emit, Hm, Hc' in Hself.
  inversion Hself as [? ? Hk|]; subst.
  destruct Hk as (_ & _ & _ & _ & _ & Hk). rewrite Hk in Hlu.
  by eapply Hmono.
Qed.

End PollScheduler.

(** ** Visible state and reconciliation of the transport fields *)

(** C7.  A snapshot whose availability flag is false shows the state
    "unavailable", whatever its other fields hold. *)
Theorem state_unavailable (c : AlexaClient) :
  available c = Some false -> state c = "unavailable".
Proof. intros H. unfold state. by rewrite H. Qed.

Lemma state_playing c :
  state c = STATE_PLAYING <->
  truthy (available c) = true /\ _media_player_state (media c) = Some "PLAYING".
Proof.
  unfold state, str_is. split.
  - destruct (truthy _); [|done]. cbn [negb].
    destruct (_media_player_state _) as [s|]; [|done].
    destruct (String.eqb_spec s "PLAYING") as [->|]; [done|].
    by repeat case_match.
  - intros [-> ->]. by rewrite String.eqb_refl.
Qed.

Lemma shuffle_populate pi c :
  _shuffle (populate pi c) = _shuffle c /\ _repeat (populate pi c) = _repeat c.
Proof. done. Qed.

(** C2 (amended).  Reconciling a session whose transport dictionary is not
    empty maps the shuffle and repeat fields so: "SELECTED" gives true,
    "DISABLED" and a missing key give unknown, and every other value
    gives false. *)
Theorem reconcile_shuffle_repeat (pi : PlayerInfo) (c : AlexaClient) (x : string) :
  pi_transport pi ≠ ∅ ->
  (pi_transport pi !! "shuffle" = Some x ->
     _shuffle (apply_session (Some pi) c)
     = if decide (x = "DISABLED") then None
       else if decide (x = "SELECTED") then Some true else Some false)
  /\ (pi_transport pi !! "repeat" = Some x ->
     _repeat (apply_session (Some pi) c)
     = if decide (x = "DISABLED") then None
       else if decide (x = "SELECTED") then Some true else Some false)
  /\ (pi_transport pi !! "shuffle" = None ->
      _shuffle (apply_session (Some pi) c) = None)
  /\ (pi_transport pi !! "repeat" = None ->
      _repeat (apply_session (Some pi) c) = None).
Proof.
  intros Hne.
  assert (forall key, tri_state (pi_transport pi) key
            = match pi_transport pi !! key with
              | Some x => if decide (x = "DISABLED") then None
                          else if decide (x = "SELECTED") then Some true
                          else Some false
              | None => None
              end) as Htri.
  { intros key. unfold tri_state. destruct (_ !! key) as [y|]; [|done].
    destruct (String.eqb_spec y "DISABLED"), (String.eqb_spec y "SELECTED");
      repeat case_decide; done. }
  assert (_shuffle (apply_session (Some pi) c) = tri_state (pi_transport pi) "shuffle"
          /\ _repeat (apply_session (Some pi) c) = tri_state (pi_transport pi) "repeat")
    as [-> ->].
  { unfold apply_session. rewrite bool_decide_eq_true_2 by done.
    destruct (truthy_str _); [rewrite !(proj1 (shuffle_populate _ _)),
                                      !(proj2 (shuffle_populate _ _))|]; done. }
  rewrite !Htri. repeat split; by intros ->.
Qed.

Lemma apply_session_coherent s c : session_coherent (apply_session s c).
Proof.
  intros st. unfold apply_session.
  destruct s as [pi|]; [|done].
  destruct (bool_decide _), (truthy_str _); cbn; try done;
    intros H; by exists pi.
Qed.

Lemma finish_refresh_lookup m s w c :
  entities w !! m = Some c ->
  entities (finish_refresh m s w) !! m = Some (apply_session s c).
Proof.
  intros Hm. unfold finish_refresh. rewrite Hm.
  by rewrite entities_emits, lookup_put.
Qed.

(** Every refresh that fetches or takes over a session leaves the entity
    with a player state that is the state of its session. *)
Lemma refresh_coherent m d w c :
  entities w !! m = Some c ->
  exists c', entities (refresh m d false w) !! m = Some c' /\ session_coherent c'.
Proof.
  intros Hm. unfold refresh, own_session. rewrite Hm.
  repeat case_match; eexists;
    (split; [apply finish_refresh_lookup | apply apply_session_coherent]);
    rewrite ?entities_emit, ?lookup_upd, ?entities_emit, ?lookup_put;
    reflexivity.
Qed.

(** ** Commands *)

Section Commands.

(** The value of [PLAY_SCAN_INTERVAL]. *)
Variable interval : Z.

Implicit Types (w : World) (c : AlexaClient) (m p x : string).

Lemma after_command_touches m w :
  touches update_effect kept_by_update m w (after_command interval m w).
Proof.
  unfold after_command. destruct (negb _);
    [apply async_update_touches | apply touches_refl; apply _].
Qed.

(** What a command leaves behind once its remote call [e] is made on the
    world [w1] that holds the entity [c1]. *)
Lemma command_result m e c1 w w1 :
  entities w1 !! m = Some c1 -> effects w1 = effects w ->
  exists c2 t,
    entities (after_command interval m (emit e w1)) !! m = Some c2
    /\ kept_by_update c1 c2
    /\ effects (after_command interval m (emit e w1)) = effects w ++ e :: t
    /\ Forall update_effect t.
Proof.
  intros Hm He.
  destruct (after_command_touches m (emit e w1))
    as [_ _ _ _ _ _ _ Hself (t & Heff & Ht)].
  rewrite entities_emit, Hm in Hself. inversion Hself as [? c2 Hk Hx Hc2|].
  exists c2, t. repeat split; try done; try apply Hk.
  rewrite Heff. cbn. by rewrite He, <- app_assoc.
Qed.


(** C9 (what the code does).  [mute(false)] on an available device with no
    cached previous volume calls [set_volume(50)]: the value sent is 50
    and not the 0.5 of the [0,1] scale. *)
Theorem unmute_without_cache m w c :
  entities w !! m = Some c -> truthy (available c) = true ->
  _previous_volume c = None ->
  exists t,
    effects (async_mute_volume interval m false w)
      = effects w ++ ApiSetVolume m 50%Q :: t
    /\ Forall update_effect t
    /\ ~ Qeq 50%Q (1 # 2)%Q.
Proof.
  intros Hm Hav Hp.
  destruct (command_result m (ApiSetVolume m 50%Q)
              (set_media_is_muted (Some false) c)
              w (put m (set_media_is_muted (Some false) c) w))
    as (c2 & t & Hc2 & Hk & He & Ht); [apply lookup_put | done |].
  exists t. split; [|split; [done|]].
  - rewrite <- He. unfold async_mute_volume. rewrite Hm, Hav. cbn [negb].
    assert (_previous_volume (set_media_is_muted (Some false) c) = None)
      as -> by done. done.
  - intros H. unfold Qeq in H. cbn in H. lia.
Qed.

End Commands.

(** ** Cluster delegation *)

Section Delegation.

(** The value of [PLAY_SCAN_INTERVAL]. *)
Variable interval : Z.

Implicit Types (w : World) (c : AlexaClient) (m p x : string).

Lemma is_playing_put m c w x :
  x ≠ m -> is_playing (put m c w) x = is_playing w x.
Proof. intros Hx. unfold is_playing. by rewrite lookup_put_ne. Qed.

Lemma refresh_sources_same c :
  let c' := refresh_sources c in
  hass c' = hass c /\ _capabilities c' = _capabilities c
  /\ _parent_clusters c' = _parent_clusters c
  /\ _device_serial_number c' = _device_serial_number c
  /\ available c' = available c.
Proof. unfold refresh_sources. by case_match. Qed.

Lemma refresh_last_called_same w c :
  let c' := refresh_last_called w c in
  hass c' = hass c /\ _capabilities c' = _capabilities c
  /\ _parent_clusters c' = _parent_clusters c
  /\ _device_serial_number c' = _device_serial_number c
  /\ available c' = available c.
Proof. unfold refresh_last_called. by case_match. Qed.

(** The snapshot of a member after a refresh that found [p] as its only
    playing parent, with [ps] the session of [p]. *)
Lemma apply_member_session ps c p :
  pi_state ps = Some "PLAYING" -> truthy (available c) = true ->
  let c' := apply_session (Some (member_session (_device_serial_number c) ps))
              (set_playing_parent (Some p) c) in
  _playing_parent c' = Some p /\ state c' = STATE_PLAYING.
Proof.
  intros Hps Hav. cbn zeta. unfold apply_session.
  cbn [member_session pi_state pi_transport]. rewrite Hps. cbn [truthy_str String.eqb Ascii.eqb Bool.eqb negb].
  split; [by case_match|].
  apply state_playing. by case_match.
Qed.

(** A refresh of an available, music-capable member with two parent
    clusters of which exactly [p] is playing records [p] as the playing
    parent and takes over its PLAYING session. *)
Lemma refresh_records_parent m d a b p w c0 :
  entities w !! m = Some c0 -> hass c0 = true ->
  online d = true -> "MUSIC_SKILL" ∈ capabilities d ->
  parentClusters d = [a; b] -> a ≠ m -> b ≠ m ->
  List.filter (is_playing w) [a; b] = [p] ->
  (forall pe, entities w !! p = Some pe -> session_coherent pe) ->
  exists c1, entities (refresh m (Some d) false w) !! m = Some c1
    /\ _playing_parent c1 = Some p /\ state c1 = STATE_PLAYING
    /\ p ≠ m
    /\ entities (refresh m (Some d) false w) !! p = entities w !! p.
Proof.
  intros Hm Hhass Hon Hcap Hpar Ha Hb Hfil Hcoh.
  assert (p ≠ m /\ is_playing w p = true) as [Hpm Hplay].
  { cbn in Hfil. destruct (is_playing w a) eqn:?, (is_playing w b) eqn:?;
      simplify_eq; done. }
  unfold is_playing in Hplay. destruct (entities w !! p) as [pe|] eqn:Hp; [|done].
  apply String.eqb_eq, state_playing in Hplay as [Hpav Hpst].
  destruct (Hcoh pe eq_refl _ Hpst) as (ps & Hsess & Hst).
  unfold refresh. rewrite Hm.
  set (c2 := refresh_last_called w (refresh_sources (apply_listing d c0))).
  destruct (refresh_last_called_same w (refresh_sources (apply_listing d c0)))
    as (Hh2 & Hc2 & Hp2 & Hs2 & Ha2).
  destruct (refresh_sources_same (apply_listing d c0)) as (Hh1 & Hc1 & Hp1 & Hs1 & Ha1).
  fold c2 in Hh2, Hc2, Hp2, Hs2, Ha2.
  assert (available (apply_listing d c0) = Some true) as Hav0
    by (cbn; by rewrite Hon).
  rewrite Hav0. cbn [truthy negb].
  assert (mem "MUSIC_SKILL" (_capabilities c2) = true) as ->.
  { rewrite Hc2, Hc1. by apply bool_decide_eq_true_2. }
  cbn [negb].
  assert (playing_parents (put m c2 w) c2 = [p]) as ->.
  { unfold playing_parents. rewrite Hh2, Hh1. cbn [hass apply_listing].
    rewrite Hhass, Hp2, Hp1. cbn [_parent_clusters apply_listing].
    rewrite Hpar. cbn [List.filter].
    rewrite !is_playing_put by done. exact Hfil. }
  rewrite (upd_put m _ c2) by apply lookup_put. rewrite put_put.
  rewrite lookup_put_ne by done. rewrite Hp. cbn [mbind option_bind].
  rewrite Hsess. unfold finish_refresh. rewrite lookup_put, put_put.
  rewrite entities_emits, lookup_put, lookup_put_ne, Hp by done.
  eexists. split; [done|].
  assert (truthy (available c2) = true) as Hav2 by (by rewrite Ha2, Ha1, Hav0).
  destruct (apply_member_session ps c2 p Hst Hav2) as [? ?].
  by repeat split.
Qed.

(** While [m] defers to a parent, no dispatch of the play command, started
    on any entity, calls the remote play of [m]. *)
Lemma play_never_own m p0 c n : forall x w w',
  entities w !! m = Some c -> _playing_parent c = Some p0 ->
  async_media_play interval n x w = Some w' ->
  exists t, effects w' = effects w ++ t /\ ApiPlay m ∉ t.
Proof.
  induction n as [|n IH]; intros x w w' Hm Hpar Hrun; [done|].
  cbn [async_media_play] in Hrun.
  destruct (entities w !! x) as [cx|] eqn:Hx; [|done].
  destruct (negb (can_transport cx)).
  { injection Hrun as <-. exists [].
    split; [by rewrite app_nil_r | apply not_elem_of_nil]. }
  assert (exists w1 t1, w' = after_command interval x w1
                        /\ effects w1 = effects w ++ t1 /\ ApiPlay m ∉ t1)
    as (w1 & t1 & -> & He1 & Ht1).
  { destruct (_playing_parent cx) as [q|] eqn:Hq.
    - destruct (async_media_play interval n q w) as [w1|] eqn:Hw1; [|done].
      injection Hrun as <-. destruct (IH q w w1 Hm Hpar Hw1) as (t1 & ? & ?).
      by exists w1, t1.
    - injection Hrun as <-. exists (emit (ApiPlay x) w), [ApiPlay x].
      repeat split. apply not_elem_of_cons. split; [|apply not_elem_of_nil].
      intros [= <-]. congruence. }
  destruct (after_command_touches interval x w1) as [_ _ _ _ _ _ _ _ (t2 & He2 & Ht2)].
  exists (t1 ++ t2). split; [by rewrite He2, He1, app_assoc|].
  rewrite elem_of_app. intros [?|Hin]; [done|].
  by apply (proj1 (Forall_forall _ _) Ht2) in Hin.
Qed.

(** C1 (amended).  Take an available, music-capable member attached to the
    platform, with two parent clusters of which exactly one, [p], is
    PLAYING.  After the member's refresh, a play command issued on the
    member is the play command of [p]'s dispatcher followed by the member's
    own post-command step, and no run of it calls the member's own remote
    play; when [p] acts for itself the remote play of [p] is called. *)
Theorem play_delegates_to_parent m d a b p w c0 :
  entities w !! m = Some c0 -> hass c0 = true ->
  online d = true -> "MUSIC_SKILL" ∈ capabilities d ->
  parentClusters d = [a; b] -> a ≠ m -> b ≠ m ->
  List.filter (is_playing w) [a; b] = [p] ->
  (forall pe, entities w !! p = Some pe -> session_coherent pe) ->
  (forall n,
     async_media_play interval (S n) m (refresh m (Some d) false w)
     = after_command interval m <$>
         async_media_play interval n p (refresh m (Some d) false w))
  /\ (forall n w',
       async_media_play interval n m (refresh m (Some d) false w) = Some w' ->
       exists t, effects w' = effects (refresh m (Some d) false w) ++ t
                 /\ ApiPlay m ∉ t)
  /\ ((forall pe, entities w !! p = Some pe -> _playing_parent pe = None) ->
      exists w' t,
        async_media_play interval 2 m (refresh m (Some d) false w) = Some w'
        /\ effects w' = effects (refresh m (Some d) false w) ++ ApiPlay p :: t
        /\ Forall update_effect t).
Proof.
  intros Hm Hhass Hon Hcap Hpar Ha Hb Hfil Hcoh.
  destruct (refresh_records_parent m d a b p w c0)
    as (c1 & Hc1 & Hpp & Hst & Hpm & Hp); try done.
  set (w1 := refresh m (Some d) false w) in *.
  assert (can_transport c1 = true) as Hcan.
  { unfold can_transport. rewrite Hst. apply state_playing in Hst as [-> _].
    by rewrite andb_true_r. }
  assert (forall n, async_media_play interval (S n) m w1
                    = after_command interval m <$> async_media_play interval n p w1)
    as Hfwd.
  { intros n. cbn [async_media_play]. by rewrite Hc1, Hcan, Hpp. }
  split; [done|]. split.
  { intros n w' Hrun. by eapply play_never_own. }
  intros Hauto. rewrite Hfwd. cbn [async_media_play]. rewrite Hp.
  assert (is_playing w p = true) as Hplay.
  { cbn in Hfil. destruct (is_playing w a) eqn:?, (is_playing w b) eqn:?;
      simplify_eq; done. }
  unfold is_playing in Hplay. destruct (entities w !! p) as [pe|] eqn:Hpe; [|done].
  apply String.eqb_eq in Hplay.
  assert (can_transport pe = true) as ->.
  { unfold can_transport. rewrite Hplay. apply state_playing in Hplay as [-> _].
    by rewrite andb_true_r. }
  rewrite (Hauto pe eq_refl). cbn [negb fmap option_fmap option_map].
  destruct (after_command_touches interval p (emit (ApiPlay p) w1))
    as [_ _ _ _ _ _ _ _ (t1 & He1 & Ht1)].
  destruct (after_command_touches interval m
              (after_command interval p (emit (ApiPlay p) w1)))
    as [_ _ _ _ _ _ _ _ (t2 & He2 & Ht2)].
  eexists _, (t1 ++ t2). split; [done|]. split; [|by apply Forall_app].
  rewrite He2, He1. cbn. by rewrite <- !app_assoc.
Qed.

End Delegation.

(** ** The properties on the sample account *)

Ltac in_list := repeat first [apply list_elem_of_here | apply list_elem_of_further].

Ltac not_in_list :=
  let H := fresh in
  intros H;
  repeat (apply elem_of_cons in H as [H|H]; [discriminate H|]);
  by apply elem_of_nil in H.

(** C1: the member was refreshed while it played for itself; its parent
    "P1" started playing after that.  The member now has two parent
    clusters of which exactly one is PLAYING, and its play command calls
    its own remote session and not the parent. *)
Lemma stale_parent_counterexample :
  _parent_clusters <$>
    entities (async_update 20 "P1" (async_update 20 "M" sample_proven)) !! "M"
  = Some ["P1"; "P2"]
  /\ List.filter
       (is_playing (async_update 20 "P1" (async_update 20 "M" sample_proven)))
       ["P1"; "P2"] = ["P1"]
  /\ exists w',
       async_media_play 20 2 "M"
         (async_update 20 "P1" (async_update 20 "M" sample_proven)) = Some w'
       /\ ApiPlay "M" ∈ effects w' /\ ApiPlay "P1" ∉ effects w'.
Proof.
  split; [by vm_compute|]. split; [by vm_compute|].
  eexists. split; [vm_compute; reflexivity|].
  split; [cbn [effects]; in_list | cbn [effects]; not_in_list].
Qed.

Lemma play_delegates_to_parent_witness :
  exists w' t,
    async_media_play 20 2 "M"
      (refresh "M" (Some (sample_listing "M" ["P1"; "P2"])) false
         (async_update 20 "P1" sample_proven)) = Some w'
    /\ effects w'
       = effects (refresh "M" (Some (sample_listing "M" ["P1"; "P2"])) false
                    (async_update 20 "P1" sample_proven))
         ++ ApiPlay "P1" :: t
    /\ Forall update_effect t.
Proof.
  refine (proj2 (proj2 (play_delegates_to_parent 20 "M"
            (sample_listing "M" ["P1"; "P2"]) "P1" "P2" "P1"
            (async_update 20 "P1" sample_proven)
            (sample_client "M" ["P1"; "P2"]) _ _ _ _ _ _ _ _ _)) _).
  - by vm_compute.
  - reflexivity.
  - reflexivity.
  - cbn. in_list.
  - reflexivity.
  - discriminate.
  - discriminate.
  - by vm_compute.
  - intros pe Hpe. vm_compute in Hpe. injection Hpe as <-.
    intros s Hs. eexists. split; [reflexivity|exact Hs].
  - intros pe Hpe. vm_compute in Hpe. by injection Hpe as <-.
Defined.

(** C2: the transport of the sample session says "ENABLED" for shuffle,
    which is neither "SELECTED" nor "DISABLED"; after the refresh the
    shuffle field is false, not unknown. *)
Lemma transport_counterexample :
  pi_transport sample_session !! "shuffle" = Some "ENABLED"
  /\ _shuffle <$> entities (refresh "M" None false sample_proven) !! "M"
     = Some (Some false).
Proof. split; by vm_compute. Qed.

Lemma reconcile_shuffle_repeat_witness :
  pi_transport sample_session ≠ ∅
  /\ pi_transport sample_session !! "shuffle" = Some "ENABLED"
  /\ _shuffle (apply_session (Some sample_session) (sample_client "M" []))
     = Some false.
Proof.
  assert (pi_transport sample_session ≠ ∅) as Hne.
  { intros H. apply (f_equal (lookup "shuffle")) in H. by vm_compute in H. }
  split; [exact Hne|]. split; [by vm_compute|].
  exact (proj1 (reconcile_shuffle_repeat sample_session
                  (sample_client "M" []) "ENABLED" Hne) eq_refl).
Defined.

(** C3: the push channel has delivered volume changes only; a volume
    event then makes the handler update, with a call to the remote
    session, and the refresh puts the session's volume 30/100 over the
    40/100 of the event. *)
Lemma volume_event_counterexample :
  Refresh "M" ∈ effects (_handle_event 20 "M" volume_event_40 sample_unproven)
  /\ ApiGetState "M"
       ∈ effects (_handle_event 20 "M" volume_event_40 sample_unproven)
  /\ _media_vol_level <$>
       entities (_handle_event 20 "M" volume_event_40 sample_unproven) !! "M"
     = Some (Some (Qmake 30 100)).
Proof.
  split; [|split]; [| |by vm_compute].
  - assert (effects (_handle_event 20 "M" volume_event_40 sample_unproven)
            = [ScheduleUpdate "M" false; ScheduleUpdate "M" false; Refresh "M";
               ApiGetState "M"; ScheduleUpdate "M" false]) as -> by by vm_compute.
    in_list.
  - assert (effects (_handle_event 20 "M" volume_event_40 sample_unproven)
            = [ScheduleUpdate "M" false; ScheduleUpdate "M" false; Refresh "M";
               ApiGetState "M"; ScheduleUpdate "M" false]) as -> by by vm_compute.
    in_list.
Qed.

Lemma volume_event_witness :
  _media_vol_level <$> entities (volume_set "M" 40 sample_proven) !! "M"
    = Some (Some (Qmake 40 100))
  /\ (exists t, effects (volume_set "M" 40 sample_proven)
                = effects sample_proven ++ t
            /\ Forall (fun e => e = ScheduleUpdate "M" false) t)
  /\ _handle_event 20 "M" volume_event_40 sample_proven
     = if seen_without_audio (websocket_commands sample_proven)
       then async_update 20 "M" (volume_set "M" 40 sample_proven)
       else volume_set "M" 40 sample_proven.
Proof.
  apply (volume_event 20 "M" volume_event_40
           {| ps_deviceSerialNumber := "M"; audioPlayerState := None;
              mediaReferenceId := None; volumeSetting := Some 40;
              dopplerConnectionState := None |}
           40 sample_proven (sample_client "M" ["P1"; "P2"]));
    first [by vm_compute | reflexivity | discriminate].
Defined.

(** C4: an event with a media reference and no audio player state is
    followed by the refresh at once: no sleep is in the trace and the
    clock has not moved. *)
Lemma media_event_counterexample :
  effects (_handle_event 20 "M" media_event sample_proven)
  = [ScheduleUpdate "M" false; Refresh "M"; ApiGetState "M";
     ScheduleUpdate "M" false]
  /\ clock (_handle_event 20 "M" media_event sample_proven)
     = clock sample_proven.
Proof. split; by vm_compute. Qed.

Lemma player_state_refresh_witness :
  _handle_event 20 "M" audio_event sample_proven
  = async_update 20 "M" (sleep 2 (mark_available "M" sample_proven))
  /\ clock (_handle_event 20 "M" audio_event sample_proven)
     = clock sample_proven + 2
  /\ exists t, effects (_handle_event 20 "M" audio_event sample_proven)
               = effects sample_proven ++ ScheduleUpdate "M" false :: Sleep 2 :: t
            /\ Forall update_effect t.
Proof.
  refine (proj1 (player_state_refresh 20 "M" audio_event
           {| ps_deviceSerialNumber := "M"; audioPlayerState := Some "PLAYING";
              mediaReferenceId := None; volumeSetting := None;
              dopplerConnectionState := None |}
           sample_proven (sample_client "M" ["P1"; "P2"])
           _ _ _ _ _ _ _ _) _);
    first [by vm_compute | reflexivity | discriminate].
Defined.

(** C5: the device was updated at 100 and is updated again at 105; it is
    PLAYING, the push channel has delivered nothing, no timer is pending,
    and the update schedules no timer and clears the polling flag. *)
Lemma play_scan_counterexample :
  effects (sample_world true None) = []
  /\ state <$> entities (async_update 20 "M" (sample_world true None)) !! "M"
     = Some STATE_PLAYING
  /\ effects (async_update 20 "M" (sample_world true None))
     = [Refresh "M"; ApiGetState "M"; ScheduleUpdate "M" false]
  /\ _should_poll <$>
       entities (async_update 20 "M" (sample_world true None)) !! "M"
     = Some false.
Proof. repeat split; by vm_compute. Qed.

Lemma play_scan_schedule_witness :
  (_should_poll <$> entities (schedule_poll 20 "M" None sample_later) !! "M"
   = Some false)
  /\ effects (schedule_poll 20 "M" None sample_later)
     = effects sample_later ++ [CallLater "M" 135 20] ++ [ScheduleUpdate "M" false].
Proof.
  assert (exists c, entities sample_later !! "M" = Some c
                    /\ state c = STATE_PLAYING /\ _last_update c = Some 100)
    as (c & Hc & Hst & Hlu).
  { eexists. split; [by vm_compute|]. split; by vm_compute. }
  destruct (play_scan_schedule 20 "M" None sample_later c Hc Hst eq_refl)
    as (H1 & H2 & _).
  split; [exact H1|]. rewrite H2, Hlu. reflexivity.
Defined.

(** C6: "M" was the last called device; a last-called event for "P1",
    which is neither "M" nor its app device, turns the flag to false. *)
Lemma last_called_counterexample :
  _last_called <$> entities sample_proven !! "M" = Some (Some true)
  /\ _last_called <$>
       entities (_handle_event 20 "M" foreign_last_called sample_proven) !! "M"
     = Some (Some false).
Proof. split; by vm_compute. Qed.

Lemma last_called_foreign_witness :
  exists c',
    entities (_handle_event 20 "M" foreign_last_called sample_proven) !! "M"
      = Some c'
    /\ _last_called c' = Some false
    /\ _last_called_timestamp c' = Some 90.
Proof.
  apply (last_called_foreign 20 "M" foreign_last_called
           {| lcc_serialNumber := "P1"; lcc_timestamp := 104 |}
           sample_proven (sample_client "M" ["P1"; "P2"]));
    first [by vm_compute | reflexivity | discriminate | cbn; not_in_list].
Defined.

Lemma state_unavailable_witness :
  available (set_available (Some false) (sample_client "M" [])) = Some false
  /\ state (set_available (Some false) (sample_client "M" [])) = "unavailable".
Proof.
  split; [reflexivity|].
  apply (state_unavailable (set_available (Some false) (sample_client "M" []))).
  reflexivity.
Defined.


Lemma unmute_without_cache_witness :
  exists t,
    effects (async_mute_volume 20 "M" false sample_proven)
      = effects sample_proven ++ ApiSetVolume "M" 50%Q :: t
    /\ Forall update_effect t
    /\ ~ Qeq 50%Q (1 # 2)%Q.
Proof.
  apply (unmute_without_cache 20 "M" sample_proven
           (sample_client "M" ["P1"; "P2"]));
    first [by vm_compute | reflexivity].
Defined.

Lemma handle_event_marks_available_witness :
  available <$>
    entities (_handle_event 20 "M" foreign_last_called
                (upd "M" (set_available (Some false)) sample_proven)) !! "M"
  = Some (Some true).
Proof.
  refine (proj2 (proj2 (handle_event_marks_available 20 "M" foreign_last_called
            "P1" (upd "M" (set_available (Some false)) sample_proven)
            (set_available (Some false) (sample_client "M" ["P1"; "P2"]))
            _ _ _ _)) _ _);
    first [by vm_compute | reflexivity | discriminate].
Defined.

(** * Further properties of the code *)

(** ** Accessors *)

(** X1.  The visible state is one of the five platform states; it is
    "unavailable" exactly when the device is not available, and for an
    available device "standby" exactly when the player state is none of
    PLAYING, PAUSED and IDLE.  The content type is "music" exactly when
    the state is "playing" or "paused". *)
Theorem state_classification (c : AlexaClient) :
  state c ∈ [STATE_UNAVAILABLE; STATE_PLAYING; STATE_PAUSED; STATE_IDLE;
             STATE_STANDBY]
  /\ (state c = STATE_UNAVAILABLE <-> truthy (available c) = false)
  /\ (truthy (available c) = true ->
      (state c = STATE_STANDBY <->
       _media_player_state (media c) ≠ Some "PLAYING"
       /\ _media_player_state (media c) ≠ Some "PAUSED"
       /\ _media_player_state (media c) ≠ Some "IDLE"))
  /\ (media_content_type c = MEDIA_TYPE_MUSIC <->
      state c = STATE_PLAYING \/ state c = STATE_PAUSED).
Proof.
  assert (forall s, str_is (_media_player_state (media c)) s = true
                    <-> _media_player_state (media c) = Some s) as Hstr.
  { intros s. unfold str_is. destruct (_media_player_state _) as [x|].
    - rewrite String.eqb_eq. split; congruence.
    - split; discriminate. }
  split; [|split; [|split]].
  - unfold state. repeat case_match; in_list.
  - unfold state. destruct (truthy _); cbn [negb]; [|done].
    split; [|done]. by repeat case_match.
  - intros Hav. unfold state. rewrite Hav. cbn [negb].
    destruct (str_is _ "PLAYING") eqn:H1; [apply Hstr in H1|].
    { split; [done|]. by intros (? & _). }
    destruct (str_is _ "PAUSED") eqn:H2; [apply Hstr in H2|].
    { split; [done|]. by intros (_ & ? & _). }
    destruct (str_is _ "IDLE") eqn:H3; [apply Hstr in H3|].
    { split; [done|]. by intros (_ & _ & ?). }
    split; [|done]. intros _.
    repeat split; intros H; apply Hstr in H; congruence.
  - unfold media_content_type, mem.
    destruct (bool_decide _) eqn:Hd.
    + apply bool_decide_eq_true_1 in Hd. split; [|done]. intros _.
      apply elem_of_cons in Hd as [?|Hd]; [by left|].
      apply list_elem_of_singleton in Hd. by right.
    + apply bool_decide_eq_false_1 in Hd. split; [done|].
      intros [H|H]; destruct Hd; rewrite H; in_list.
Qed.

Lemma occurs_append a s1 s2 :
  occurs a (String.append s1 s2) = occurs a s1 || occurs a s2.
Proof.
  induction s1 as [|b s1 IH]; [done|]. simpl. by rewrite IH, orb_assoc.
Qed.

Lemma sub_char_removes a repl s :
  occurs a repl = false -> occurs a (sub_char a repl s) = false.
Proof.
  intros Hr. induction s as [|b s IH]; [done|]. simpl.
  destruct (Ascii.eqb b a) eqn:Hb.
  - by rewrite occurs_append, Hr, IH.
  - simpl. by rewrite Hb, IH.
Qed.

Lemma sub_char_keeps a b repl s :
  occurs b repl = false -> occurs b s = false ->
  occurs b (sub_char a repl s) = false.
Proof.
  intros Hr. induction s as [|x s IH]; [done|]. simpl.
  intros [Hx Hs]%orb_false_elim.
  destruct (Ascii.eqb x a).
  - by rewrite occurs_append, Hr, IH.
  - simpl. by rewrite Hx, IH.
Qed.

Lemma sub_char_absent a repl s :
  occurs a s = false -> sub_char a repl s = s.
Proof.
  induction s as [|b s IH]; [done|]. simpl.
  intros [-> Hs]%orb_false_elim. by rewrite IH.
Qed.

Lemma escape_parens_clean url :
  occurs open_paren (escape_parens url) = false
  /\ occurs close_paren (escape_parens url) = false.
Proof.
  unfold escape_parens. split.
  - by apply sub_char_removes.
  - apply sub_char_keeps; [done|]. by apply sub_char_removes.
Qed.

(** X2.  The exposed art URL holds no parenthesis: it is the stored URL
    with every ")" replaced by "%29" and every "(" by "%28", so a stored
    URL without parentheses is exposed as it is and escaping an escaped
    URL changes nothing.  A missing or empty URL is exposed as [None] and
    is not remotely accessible. *)
Theorem media_image_url_escaped (c : AlexaClient) :
  (forall u, media_image_url c = Some u ->
     occurs open_paren u = false /\ occurs close_paren u = false
     /\ escape_parens u = u
     /\ media_image_remotely_accessible c = true
     /\ exists raw, _media_image_url (media c) = Some raw /\ raw ≠ ""
          /\ u = escape_parens raw
          /\ (occurs open_paren raw = false -> occurs close_paren raw = false ->
              u = raw))
  /\ (media_image_url c = None <->
      _media_image_url (media c) = None \/ _media_image_url (media c) = Some "")
  /\ (media_image_url c = None <-> media_image_remotely_accessible c = false).
Proof.
  unfold media_image_url, media_image_remotely_accessible, truthy_str.
  destruct (_media_image_url (media c)) as [raw|]; cbn;
    [|split; [done|split; split; auto]].
  destruct (String.eqb_spec raw "") as [->|Hne]; cbn.
  { split; [done|]. split; split; auto. }
  split; [|split; split; try done; by intros [|[=]]].
  intros u [= <-]. destruct (escape_parens_clean raw) as [Ho Hc].
  split; [done|]. split; [done|]. split.
  { unfold escape_parens at 1. rewrite (sub_char_absent close_paren) by done.
    by apply sub_char_absent. }
  split; [done|]. exists raw. repeat split; try done.
  intros Ho' Hc'. unfold escape_parens.
  rewrite (sub_char_absent close_paren) by done. by apply sub_char_absent.
Qed.

(** ** Sources *)

(** X3.  The source list starts with "Local Speaker", and a further name
    is in it exactly when a paired device with the "A2DP-SOURCE" profile
    has that friendly name, connected or not; without paired devices the
    list is the local speaker alone. *)
Theorem source_list_members (c : AlexaClient) :
  head (_get_source_list c) = Some "Local Speaker"
  /\ (forall name, name ∈ _get_source_list c <->
        name = "Local Speaker"
        \/ exists d, d ∈ paired c /\ "A2DP-SOURCE" ∈ profiles d
                     /\ friendlyName d = name)
  /\ (pairedDeviceList (_bluetooth_state c) = None ->
      _get_source_list c = ["Local Speaker"]).
Proof.
  unfold _get_source_list. split; [done|]. split.
  - intros name. rewrite elem_of_cons, list_elem_of_fmap.
    split; (intros [?|(d & Hd1 & Hd2)]; [by left|right]).
    + exists d. apply list_elem_of_In, List.filter_In in Hd2 as [Hin Hp].
      apply bool_decide_eq_true_1 in Hp.
      by rewrite list_elem_of_In.
    + destruct Hd2 as (Hp & Hn). exists d. split; [done|].
      apply list_elem_of_In, List.filter_In. split; [by apply list_elem_of_In|].
      by apply bool_decide_eq_true_2.
  - intros Hnone. unfold paired. by rewrite Hnone.
Qed.

Lemma get_source_cases (c : AlexaClient) :
  (_get_source c = "Local Speaker"
   \/ exists d, d ∈ paired c /\ connected d = true
                /\ friendlyName d ∈ _source_list c
                /\ _get_source c = friendlyName d)
  /\ (_source_list c = [] -> _get_source c = "Local Speaker")
  /\ ((forall d, d ∈ paired c -> connected d = false) ->
      _get_source c = "Local Speaker").
Proof.
  unfold _get_source.
  destruct (List.find _ (paired c)) as [d|] eqn:Hf.
  - apply List.find_some in Hf as [Hin [Hc Hm]%andb_prop].
    apply bool_decide_eq_true_1 in Hm. apply list_elem_of_In in Hin.
    split; [right; by exists d|]. split.
    + intros Hempty. rewrite Hempty in Hm. by apply elem_of_nil in Hm.
    + intros Hnone. rewrite (Hnone d Hin) in Hc. done.
  - cbn. split; [by left|]. done.
Qed.

(** X4.  The resolved source is "Local Speaker" or the friendly name of a
    connected paired device that is in the source list the entity had
    before; with an empty source list, as on a new entity, it is
    "Local Speaker" whatever is connected. *)
Theorem source_resolution (c : AlexaClient) :
  (_get_source c = "Local Speaker"
   \/ exists d, d ∈ paired c /\ connected d = true
                /\ friendlyName d ∈ _source_list c
                /\ _get_source c = friendlyName d)
  /\ (_source_list c = [] -> _get_source c = "Local Speaker")
  /\ ((forall d, d ∈ paired c -> connected d = false) ->
      _get_source c = "Local Speaker").
Proof. exact (get_source_cases c). Qed.

Lemma get_source_list_ext c c' :
  _bluetooth_state c = _bluetooth_state c' ->
  _get_source_list c = _get_source_list c'.
Proof. unfold _get_source_list, paired. by intros ->. Qed.

Lemma get_source_ext c c' :
  _bluetooth_state c = _bluetooth_state c' -> _source_list c = _source_list c' ->
  _get_source c = _get_source c'.
Proof. unfold _get_source, paired. by intros -> ->. Qed.

(** X5.  The source is looked up in the source list of the refresh
    before, so one refresh of the sources need not be the last word; the
    second is: refreshing the sources a third time changes nothing, and
    from the second refresh on the source is a member of the source
    list. *)
Theorem refresh_sources_stable (c : AlexaClient) :
  refresh_sources (refresh_sources (refresh_sources c))
  = refresh_sources (refresh_sources c)
  /\ (mem "PAIR_BT_SOURCE" (_capabilities c) = true ->
      exists s, _source (refresh_sources (refresh_sources c)) = Some s
                /\ s ∈ _source_list (refresh_sources (refresh_sources c))).
Proof.
  unfold refresh_sources.
  destruct (mem "PAIR_BT_SOURCE" (_capabilities c)) eqn:Hcap; [|by rewrite !Hcap].
  cbn [_capabilities set_source set_source_list]. rewrite !Hcap.
  cbn [_capabilities set_source set_source_list]. rewrite !Hcap.
  set (L := _get_source_list (set_source (Some (_get_source c)) c)).
  set (c1 := set_source_list L (set_source (Some (_get_source c)) c)).
  assert (_get_source_list (set_source (Some (_get_source c1)) c1) = L) as HL
    by by apply get_source_list_ext.
  rewrite HL.
  set (c2 := set_source_list L (set_source (Some (_get_source c1)) c1)).
  assert (_get_source_list (set_source (Some (_get_source c2)) c2) = L) as HL2
    by by apply get_source_list_ext.
  assert (_get_source c2 = _get_source c1) as Hs by by apply get_source_ext.
  rewrite HL2, Hs. split; [done|]. intros _.
  exists (_get_source c1). split; [done|]. cbn [_source_list set_source_list].
  destruct (get_source_cases c1) as ([->|(d & _ & _ & Hin & ->)] & _).
  - subst L. unfold _get_source_list. in_list.
  - exact Hin.
Qed.

(** ** Reconciliation of a session *)

Lemma percent_twice o keep : percent o (percent o keep) = percent o keep.
Proof. unfold percent. by repeat case_match. Qed.

(** X6.  Reconciling the same session payload twice gives the snapshot of
    reconciling it once. *)
Theorem apply_session_idempotent (s : option PlayerInfo) (c : AlexaClient) :
  apply_session s (apply_session s c) = apply_session s c.
Proof.
  destruct s as [pi|]; [|by destruct c].
  unfold apply_session.
  generalize (tri_state (pi_transport pi) "repeat")
             (tri_state (pi_transport pi) "shuffle")
             (bool_decide (pi_transport pi ≠ ∅)).
  intros r sh b. destruct c as [a1 a2 a3 a4 a5 a6 a7 a8 a9 a10 a11 md vol a14 a15 a16 a17 a18
                 a19 a20 a21 a22 a23].
  destruct b, (truthy_str (pi_state pi));
    lazy [populate set_media_vol_level set_media set_repeat set_shuffle
          set_session _clear_media_details cleared
          enabled hass entity_id _device_serial_number _available _capabilities
          _cluster_members _parent_clusters _app_device_list _bluetooth_state
          _session media _media_vol_level _previous_volume _source _source_list
          _shuffle _repeat _playing_parent _last_called _last_called_timestamp
          _should_poll _last_update
          pi_state pi_transport pi_volume pi_lemurVolume pi_isPlayingInLemur
          pi_mediaProgress pi_mediaLength pi_title pi_subText1 pi_subText2
          pi_mainArt_url _media_is_muted];
    try reflexivity.
  all: rewrite percent_twice; f_equal; f_equal; by repeat case_match.
Qed.

Lemma percent_not_zero o keep v :
  percent o keep = Some v -> Qeq_bool v 0%Q = true -> keep = Some v.
Proof.
  unfold percent. destruct o as [z|]; [|done].
  destruct (Z.eqb_spec z 0) as [->|Hz]; cbn [negb]; [done|].
  intros [= <-] H. apply Qeq_bool_iff in H. unfold Qeq in H. cbn in H. lia.
Qed.

(** X7.  Reconciliation never turns the volume level into 0: a session
    volume of 0 is taken for a missing one and the old level stays.  So a
    device does not become muted through a refresh.  With a compound
    volume in the session, the simple volume is not read at all. *)
Theorem reconciled_volume (s : option PlayerInfo) (c : AlexaClient) :
  (is_volume_muted (apply_session s c) = true -> is_volume_muted c = true)
  /\ (forall pi lv, s = Some pi -> pi_lemurVolume pi = Some lv ->
        truthy_str (pi_state pi) = true ->
        _media_vol_level (apply_session s c)
        = percent (compositeVolume lv ≫= volume) (_media_vol_level c))
  /\ (forall pi vi z, s = Some pi -> pi_lemurVolume pi = None ->
        truthy_str (pi_state pi) = true ->
        pi_volume pi = Some vi -> volume vi = Some z -> z ≠ 0 ->
        _media_vol_level (apply_session s c) = Some (Qmake z 100)).
Proof.
  split; [|split].
  - unfold is_volume_muted, volume_level.
    assert (_media_vol_level (apply_session s c) = _media_vol_level c
            \/ exists o, _media_vol_level (apply_session s c)
                         = percent o (_media_vol_level c)) as [->|[o Ho]];
      [|done|].
    { unfold apply_session. destruct s as [pi|]; [|by left].
      destruct (bool_decide _), (truthy_str _); try (by left);
        right; by eexists. }
    rewrite Ho. destruct (percent o _) as [v|] eqn:Hp; [|done].
    intros Hz. by rewrite (percent_not_zero _ _ _ Hp Hz).
  - intros pi lv -> Hlv Hst. unfold apply_session. rewrite Hst.
    unfold populate. rewrite Hlv. by destruct (bool_decide _).
  - intros pi vi z -> Hlv Hst Hvi Hz Hne. unfold apply_session. rewrite Hst.
    unfold populate. rewrite Hlv, Hvi.
    assert (forall k, percent (Some vi ≫= volume) k = Some (Qmake z 100)) as Hp.
    { intros k. cbn. rewrite Hz. unfold percent.
      by apply Z.eqb_neq in Hne as ->. }
    destruct (bool_decide _); cbn; apply Hp.
Qed.

(** ** Paths of [refresh]

    A refresh is a run of the body of [refresh]: a call that the throttle
    of its decorator does not drop. *)

Lemma finish_refresh_effects m s w c :
  entities w !! m = Some c ->
  effects (finish_refresh m s w)
  = effects w ++ gather_members (put m (apply_session s c) w) (apply_session s c).
Proof. intros Hm. unfold finish_refresh. by rewrite Hm. Qed.

(** X8.  A refresh with a listing that says the device is offline makes no
    remote call and no other effect, whatever [skip_api] is: the media
    details and the session are cleared and the state is "unavailable",
    while the volume level, the cached playing parent and the last-called
    fields stay as they were. *)
Theorem refresh_offline m d skip_api w c0 :
  entities w !! m = Some c0 -> online d = false ->
  effects (refresh m (Some d) skip_api w) = effects w
  /\ exists c', entities (refresh m (Some d) skip_api w) !! m = Some c'
       /\ state c' = STATE_UNAVAILABLE
       /\ media c' = cleared /\ _session c' = None
       /\ _media_vol_level c' = _media_vol_level c0
       /\ _playing_parent c' = _playing_parent c0
       /\ _last_called c' = _last_called c0
       /\ _last_called_timestamp c' = _last_called_timestamp c0.
Proof.
  intros Hm Hoff. unfold refresh. rewrite Hm.
  assert (truthy (available (apply_listing d c0)) = false) as ->
    by (cbn; by rewrite Hoff).
  cbn [negb]. split.
  - rewrite (finish_refresh_effects m None _ (apply_listing d c0))
      by apply lookup_put.
    by rewrite app_nil_r.
  - eexists. split; [apply finish_refresh_lookup, lookup_put|].
    unfold state. cbn. by rewrite Hoff.
Qed.

Lemma refresh_witness_lookup :
  entities sample_proven !! "M" = Some (sample_client "M" ["P1"; "P2"]).
Proof. by vm_compute. Qed.

Lemma refresh_offline_witness :
  effects (refresh "M" (Some offline_listing) false sample_proven)
  = effects sample_proven
  /\ exists c', entities (refresh "M" (Some offline_listing) false sample_proven)
                  !! "M" = Some c'
       /\ state c' = STATE_UNAVAILABLE
       /\ media c' = cleared /\ _session c' = None
       /\ _media_vol_level c' = Some (Qmake 3 10)
       /\ _playing_parent c' = None
       /\ _last_called c' = Some true
       /\ _last_called_timestamp c' = Some 90.
Proof.
  exact (refresh_offline "M" offline_listing false sample_proven
           (sample_client "M" ["P1"; "P2"]) refresh_witness_lookup eq_refl).
Defined.
(** A field that neither the reconciliation of a session nor the choice of
    a playing parent writes has, after a full refresh, the value the first
    part of the refresh gave it. *)
Lemma refresh_field {A} (f : AlexaClient -> A) m d w c0 :
  (forall s c, f (apply_session s c) = f c) ->
  (forall x c, f (set_playing_parent x c) = f c) ->
  entities w !! m = Some c0 ->
  f <$> entities (refresh m d false w) !! m = Some (f (listed w d c0)).
Proof.
  intros Hs Hp Hm. unfold refresh, own_session, listed. rewrite Hm.
  repeat case_match;
    (erewrite finish_refresh_lookup;
     [|rewrite ?entities_emit, ?lookup_upd, ?entities_emit, ?lookup_put;
       reflexivity]);
    cbn [fmap option_fmap option_map]; by rewrite Hs, ?Hp, ?Hp.
Qed.

Lemma session_apply_session s c : _session (apply_session s c) = s.
Proof. unfold apply_session, populate. by repeat case_match. Qed.

Lemma playing_parent_apply_session s c :
  _playing_parent (apply_session s c) = _playing_parent c.
Proof. unfold apply_session, populate. by repeat case_match. Qed.

Lemma available_apply_session s c :
  available (apply_session s c) = available c.
Proof. unfold apply_session, populate. by repeat case_match. Qed.

Lemma listed_online w d c0 :
  online d = true ->
  listed w (Some d) c0
  = refresh_last_called w (refresh_sources (apply_listing d c0))
  /\ hass (listed w (Some d) c0) = hass c0
  /\ _capabilities (listed w (Some d) c0) = capabilities d
  /\ _parent_clusters (listed w (Some d) c0) = parentClusters d
  /\ _device_serial_number (listed w (Some d) c0) = serialNumber d
  /\ available (listed w (Some d) c0) = Some true.
Proof.
  intros Hon. unfold listed.
  assert (truthy (available (apply_listing d c0)) = true) as ->
    by (cbn; by rewrite Hon).
  destruct (refresh_last_called_same w (refresh_sources (apply_listing d c0)))
    as (-> & -> & -> & -> & ->).
  destruct (refresh_sources_same (apply_listing d c0))
    as (-> & -> & -> & -> & ->).
  cbn. by rewrite Hon.
Qed.

(** The refresh of an available device up to the resolution of the
    session. *)
Lemma refresh_online m d skip_api w c0 :
  entities w !! m = Some c0 -> online d = true ->
  refresh m (Some d) skip_api w
  = let c2 := listed w (Some d) c0 in
    let w2 := put m c2 w in
    if skip_api then w2
    else if negb (mem "MUSIC_SKILL" (capabilities d))
    then finish_refresh m None w2
    else
      match playing_parents w2 c2 with
      | p :: rest =>
          let w3 := match rest with
                    | [] => w2
                    | _ :: _ => emit (WarnMultipleParents m) w2
                    end in
          let w4 := upd m (set_playing_parent (Some p)) w3 in
          match entities w4 !! p ≫= _session with
          | Some ps =>
              finish_refresh m (Some (member_session (serialNumber d) ps)) w4
          | None => own_session m w4
          end
      | [] => own_session m w2
      end.
Proof.
  intros Hm Hon. destruct (listed_online w d c0 Hon) as (Hl & _ & Hc & _ & Hs & _).
  unfold refresh. rewrite Hm.
  assert (truthy (available (apply_listing d c0)) = true) as ->
    by (cbn; by rewrite Hon).
  cbn [negb]. rewrite <- Hl, Hc, Hs. reflexivity.
Qed.

(** X9.  A refresh with [skip_api] of an available device stops after the
    listing, the sources and the last-called fields: it has no effect
    outside the snapshot, and the media details, the session, the volume
    level, shuffle, repeat and the playing parent are not touched. *)
Theorem refresh_skip_api m d w c0 :
  entities w !! m = Some c0 -> online d = true ->
  effects (refresh m (Some d) true w) = effects w
  /\ exists c', entities (refresh m (Some d) true w) !! m = Some c'
       /\ available c' = Some true
       /\ media c' = media c0 /\ _session c' = _session c0
       /\ _media_vol_level c' = _media_vol_level c0
       /\ _shuffle c' = _shuffle c0 /\ _repeat c' = _repeat c0
       /\ _playing_parent c' = _playing_parent c0.
Proof.
  intros Hm Hon. rewrite (refresh_online m d true w c0 Hm Hon). cbn zeta.
  split; [done|]. eexists. split; [apply lookup_put|].
  destruct (listed_online w d c0 Hon) as (-> & _ & _ & _ & _ & _).
  unfold refresh_last_called, refresh_sources.
  repeat case_match; cbn; by rewrite Hon.
Qed.

Lemma refresh_skip_api_witness :
  effects (refresh "M" (Some (sample_listing "M" ["P1"; "P2"])) true sample_proven)
  = effects sample_proven
  /\ exists c',
       entities (refresh "M" (Some (sample_listing "M" ["P1"; "P2"])) true
                   sample_proven) !! "M" = Some c'
       /\ available c' = Some true
       /\ media c' = media (sample_client "M" ["P1"; "P2"])
       /\ _session c' = _session (sample_client "M" ["P1"; "P2"])
       /\ _media_vol_level c' = _media_vol_level (sample_client "M" ["P1"; "P2"])
       /\ _shuffle c' = _shuffle (sample_client "M" ["P1"; "P2"])
       /\ _repeat c' = _repeat (sample_client "M" ["P1"; "P2"])
       /\ _playing_parent c' = _playing_parent (sample_client "M" ["P1"; "P2"]).
Proof.
  exact (refresh_skip_api "M" (sample_listing "M" ["P1"; "P2"]) sample_proven
           (sample_client "M" ["P1"; "P2"]) refresh_witness_lookup eq_refl).
Defined.

Lemma get_last_called_true w c :
  _get_last_called w c = true <->
  hass c = true
  /\ exists lc, last_called w = Some lc
       /\ (lc_serialNumber lc = _device_serial_number c
           \/ lc_serialNumber lc ∈ _app_device_list c).
Proof.
  unfold _get_last_called. destruct (hass c); [|split; [done|by intros [? _]]].
  destruct (last_called w) as [lc|]; cbn.
  - rewrite orb_true_iff, String.eqb_eq. unfold mem. rewrite bool_decide_eq_true.
    split.
    + intros H. split; [done|]. exists lc. split; [done|]. destruct H; auto.
    + intros (_ & lc' & [= <-] & H). destruct H; auto.
  - split; [done|]. by intros (_ & lc & ? & _).
Qed.

(** X10.  After a refresh of an available device, with or without the
    remote part, the last-called flag is true exactly when the entity is
    attached to the platform and the account's last-called record names
    the device's serial number or one of its app devices; the timestamp is
    then the one of the record, and otherwise it is the one the entity had
    before. *)
Theorem refresh_last_called_fields m d skip_api w c0 :
  entities w !! m = Some c0 -> online d = true ->
  exists c', entities (refresh m (Some d) skip_api w) !! m = Some c'
    /\ (_last_called c' = Some true \/ _last_called c' = Some false)
    /\ (_last_called c' = Some true <->
        hass c0 = true
        /\ exists lc, last_called w = Some lc
             /\ (lc_serialNumber lc = serialNumber d
                 \/ lc_serialNumber lc ∈ appDeviceList d))
    /\ (_last_called c' = Some true ->
        _last_called_timestamp c' = lc_timestamp <$> last_called w)
    /\ (_last_called c' = Some false ->
        _last_called_timestamp c' = _last_called_timestamp c0).
Proof.
  intros Hm Hon.
  assert (exists c', entities (refresh m (Some d) skip_api w) !! m = Some c'
            /\ _last_called c' = _last_called (listed w (Some d) c0)
            /\ _last_called_timestamp c'
               = _last_called_timestamp (listed w (Some d) c0))
    as (c' & Hc' & Hlc & Hts).
  { destruct skip_api.
    - rewrite (refresh_online m d true w c0 Hm Hon). cbn zeta.
      eexists. split; [apply lookup_put|done].
    - pose proof (refresh_field _last_called m (Some d) w c0) as H1.
      pose proof (refresh_field _last_called_timestamp m (Some d) w c0) as H2.
      destruct (entities (refresh m (Some d) false w) !! m) as [c'|].
      + exists c'. split; [done|]. split.
        * assert (Some (_last_called c') = Some (_last_called (listed w (Some d) c0)))
            as [= ->]; [|done].
          apply H1; [|done..]. intros s c.
          unfold apply_session, populate. by repeat case_match.
        * assert (Some (_last_called_timestamp c')
                  = Some (_last_called_timestamp (listed w (Some d) c0)))
            as [= ->]; [|done].
          apply H2; [|done..]. intros s c.
          unfold apply_session, populate. by repeat case_match.
      + exfalso. assert (@None (option bool) = Some (_last_called (listed w (Some d) c0)))
          as [=]. apply H1; [|done..]. intros s c.
        unfold apply_session, populate. by repeat case_match. }
  exists c'. split; [done|]. rewrite Hlc, Hts. clear Hlc Hts Hc'.
  destruct (listed_online w d c0 Hon) as (-> & _ & _ & _ & _ & _).
  set (c1 := refresh_sources (apply_listing d c0)).
  assert (hass c1 = hass c0 /\ _device_serial_number c1 = serialNumber d
          /\ _app_device_list c1 = appDeviceList d
          /\ _last_called_timestamp c1 = _last_called_timestamp c0)
    as (Hh & Hs & Ha & Ht).
  { subst c1. unfold refresh_sources. by case_match. }
  pose proof (get_last_called_true w c1) as Hiff.
  rewrite Hh, Hs, Ha in Hiff.
  unfold refresh_last_called.
  destruct (_get_last_called w c1); cbn.
  - split; [by left|]. split; [split; [intros _; by apply Hiff|done]|].
    split; [done|discriminate].
  - split; [by right|]. split; [split; [discriminate|]|].
    + intros H. apply Hiff in H. discriminate.
    + split; [discriminate|]. by rewrite Ht.
Qed.

Lemma refresh_last_called_fields_witness :
  exists c',
    entities (refresh "M" (Some (sample_listing "M" ["P1"; "P2"])) false
                sample_proven) !! "M" = Some c'
    /\ (_last_called c' = Some true \/ _last_called c' = Some false)
    /\ (_last_called c' = Some true <->
        hass (sample_client "M" ["P1"; "P2"]) = true
        /\ exists lc, last_called sample_proven = Some lc
             /\ (lc_serialNumber lc = serialNumber (sample_listing "M" ["P1"; "P2"])
                 \/ lc_serialNumber lc
                    ∈ appDeviceList (sample_listing "M" ["P1"; "P2"])))
    /\ (_last_called c' = Some true ->
        _last_called_timestamp c' = lc_timestamp <$> last_called sample_proven)
    /\ (_last_called c' = Some false ->
        _last_called_timestamp c'
        = _last_called_timestamp (sample_client "M" ["P1"; "P2"])).
Proof.
  exact (refresh_last_called_fields "M" (sample_listing "M" ["P1"; "P2"]) false
           sample_proven (sample_client "M" ["P1"; "P2"])
           refresh_witness_lookup eq_refl).
Defined.


Lemma filter_playing_put m c w (l : list string) :
  (forall x, x ∈ l -> x ≠ m) ->
  List.filter (is_playing (put m c w)) l = List.filter (is_playing w) l.
Proof.
  intros H. apply List.filter_ext_in. intros x Hx%list_elem_of_In.
  apply is_playing_put. by apply H.
Qed.

Lemma gather_members_none w s c :
  (forall pi, s = Some pi -> pi_isPlayingInLemur pi = false) ->
  gather_members w (apply_session s c) = [].
Proof.
  intros H. unfold gather_members. rewrite session_apply_session.
  destruct s as [pi|]; [|done]. rewrite (H pi eq_refl).
  by rewrite andb_false_r.
Qed.



Section RefreshPaths.

(** The value of [PLAY_SCAN_INTERVAL]. *)
Variable interval : Z.

(** X11.  The refresh of an available device without the music skill (a
    hidden device) makes no remote call and has no other effect; the
    session is gone, the state is "standby", and the transport commands
    issued afterwards do nothing. *)
Theorem refresh_hidden m d w c0 :
  entities w !! m = Some c0 -> online d = true ->
  "MUSIC_SKILL" ∉ capabilities d ->
  effects (refresh m (Some d) false w) = effects w
  /\ (exists c', entities (refresh m (Some d) false w) !! m = Some c'
        /\ hidden c' = true /\ _session c' = None /\ state c' = STATE_STANDBY)
  /\ (forall n, async_media_play interval (S n) m (refresh m (Some d) false w)
               = Some (refresh m (Some d) false w))
  /\ (forall op n, transport interval op (S n) m (refresh m (Some d) false w)
                  = Some (refresh m (Some d) false w, [])).
Proof.
  intros Hm Hon Hcap. rewrite (refresh_online m d false w c0 Hm Hon). cbn zeta.
  assert (mem "MUSIC_SKILL" (capabilities d) = false) as Hmem
    by by apply bool_decide_eq_false_2.
  rewrite Hmem. cbn [negb].
  destruct (listed_online w d c0 Hon) as (_ & _ & Hc & _ & _ & Hav).
  set (c2 := listed w (Some d) c0) in *.
  assert (entities (finish_refresh m None (put m c2 w)) !! m
          = Some (apply_session None c2)) as Hl
    by apply finish_refresh_lookup, lookup_put.
  assert (state (apply_session None c2) = STATE_STANDBY) as Hst.
  { unfold state. rewrite available_apply_session, Hav. done. }
  assert (can_transport (apply_session None c2) = false) as Hcan.
  { unfold can_transport. by rewrite Hst. }
  split; [|split; [|split]].
  - rewrite (finish_refresh_effects m None _ c2) by apply lookup_put.
    by rewrite gather_members_none, app_nil_r.
  - eexists. split; [done|]. split; [|done].
    unfold hidden. cbn. by rewrite Hc, Hmem.
  - intros n. cbn [async_media_play]. by rewrite Hl, Hcan.
  - intros op n. cbn [transport]. by rewrite Hl, Hcan.
Qed.


End RefreshPaths.

Lemma refresh_hidden_witness :
  effects (refresh "M" (Some hidden_listing) false sample_proven)
  = effects sample_proven
  /\ (exists c', entities (refresh "M" (Some hidden_listing) false sample_proven)
                   !! "M" = Some c'
        /\ hidden c' = true /\ _session c' = None /\ state c' = STATE_STANDBY)
  /\ (forall n, async_media_play 20 (S n) "M"
                  (refresh "M" (Some hidden_listing) false sample_proven)
                = Some (refresh "M" (Some hidden_listing) false sample_proven))
  /\ (forall op n, transport 20 op (S n) "M"
                     (refresh "M" (Some hidden_listing) false sample_proven)
                   = Some (refresh "M" (Some hidden_listing) false sample_proven,
                           [])).
Proof.
  apply (refresh_hidden 20 "M" hidden_listing sample_proven
           (sample_client "M" ["P1"; "P2"]) refresh_witness_lookup eq_refl).
  cbn. not_in_list.
Defined.


(** X13.  When a refresh of an available, attached, music-capable member
    finds playing parents, the first of them in the order of the listing
    becomes the playing parent and the member takes over a copy of its
    session without any call to its own remote session; more than one
    playing parent adds the warning and nothing else. *)
Theorem refresh_first_parent m d p rest pe ps w c0 :
  entities w !! m = Some c0 -> hass c0 = true -> online d = true ->
  "MUSIC_SKILL" ∈ capabilities d ->
  (forall x, x ∈ parentClusters d -> x ≠ m) ->
  List.filter (is_playing w) (parentClusters d) = p :: rest ->
  entities w !! p = Some pe -> _session pe = Some ps ->
  effects (refresh m (Some d) false w)
  = effects w ++ match rest with
                 | [] => []
                 | _ :: _ => [WarnMultipleParents m]
                 end
  /\ exists c', entities (refresh m (Some d) false w) !! m = Some c'
       /\ _playing_parent c' = Some p
       /\ _session c' = Some (member_session (serialNumber d) ps).
Proof.
  intros Hm Hhass Hon Hcap Hpar Hfil Hp Hps.
  rewrite (refresh_online m d false w c0 Hm Hon). cbn zeta.
  assert (mem "MUSIC_SKILL" (capabilities d) = true) as ->
    by by apply bool_decide_eq_true_2.
  cbn [negb].
  destruct (listed_online w d c0 Hon) as (_ & Hh & _ & Hpc & _ & _).
  set (c2 := listed w (Some d) c0) in *.
  assert (playing_parents (put m c2 w) c2 = p :: rest) as ->.
  { unfold playing_parents. rewrite Hh, Hhass, Hpc.
    by rewrite filter_playing_put. }
  assert (p ≠ m) as Hpm.
  { apply Hpar. apply list_elem_of_In.
    eapply (proj1 (List.filter_In (is_playing w) p (parentClusters d))).
    rewrite Hfil. by left. }
  set (w3 := match rest with [] => put m c2 w | _ :: _ => _ end).
  assert (entities w3 = entities (put m c2 w)) as Hw3
    by (subst w3; by destruct rest).
  assert (entities (upd m (set_playing_parent (Some p)) w3) !! m
          = Some (set_playing_parent (Some p) c2)) as Hl
    by by rewrite lookup_upd, Hw3, lookup_put.
  rewrite lookup_upd_ne, Hw3, lookup_put_ne, Hp by done.
  cbn [mbind option_bind]. rewrite Hps. split.
  - rewrite (finish_refresh_effects m _ _ _ Hl).
    rewrite gather_members_none by (by intros ? [= <-]).
    rewrite app_nil_r. subst w3. by destruct rest; rewrite ?app_nil_r.
  - eexists. split; [by apply finish_refresh_lookup|].
    by rewrite playing_parent_apply_session, session_apply_session.
Qed.

Lemma sample_both_parents :
  List.filter (is_playing (sample_both 20)) ["P1"; "P2"] = ["P1"; "P2"].
Proof. by vm_compute. Qed.

Lemma refresh_first_parent_witness :
  effects (refresh "M" (Some (sample_listing "M" ["P1"; "P2"])) false
             (sample_both 20))
  = effects (sample_both 20) ++ [WarnMultipleParents "M"]
  /\ exists c',
       entities (refresh "M" (Some (sample_listing "M" ["P1"; "P2"])) false
                   (sample_both 20)) !! "M" = Some c'
       /\ _playing_parent c' = Some "P1"
       /\ _session c' = Some (member_session "M" sample_session).
Proof.
  refine (refresh_first_parent "M" (sample_listing "M" ["P1"; "P2"]) "P1" ["P2"]
            _ sample_session (sample_both 20) (sample_client "M" ["P1"; "P2"])
            _ eq_refl eq_refl _ _ sample_both_parents _ _).
  - by vm_compute.
  - cbn. in_list.
  - intros x Hx. cbn in Hx.
    apply elem_of_cons in Hx as [->|Hx]; [discriminate|].
    apply list_elem_of_singleton in Hx as ->. discriminate.
  - vm_compute. reflexivity.
  - reflexivity.
Defined.

(** X14.  The session a member takes over from its playing parent never
    starts updates of cluster members, and its volume is the member's own
    entry of the parent's member volumes when there is one; without such
    an entry it is the parent's simple volume, not the compound one. *)
Theorem member_session_volume (w : World) (sn : string) (ps : PlayerInfo)
    (c : AlexaClient) :
  gather_members w (apply_session (Some (member_session sn ps)) c) = []
  /\ (truthy_str (pi_state ps) = true ->
      _media_vol_level (apply_session (Some (member_session sn ps)) c)
      = percent
          (match pi_lemurVolume ps ≫= (fun lv => memberVolume lv !! sn) with
           | Some vi => volume vi
           | None => pi_volume ps ≫= volume
           end)
          (_media_vol_level c))
  /\ (forall lv vi z, truthy_str (pi_state ps) = true ->
        pi_lemurVolume ps = Some lv -> memberVolume lv !! sn = Some vi ->
        volume vi = Some z -> z ≠ 0 ->
        _media_vol_level (apply_session (Some (member_session sn ps)) c)
        = Some (Qmake z 100)).
Proof.
  assert (truthy_str (pi_state ps) = true ->
      _media_vol_level (apply_session (Some (member_session sn ps)) c)
      = percent
          (match pi_lemurVolume ps ≫= (fun lv => memberVolume lv !! sn) with
           | Some vi => volume vi
           | None => pi_volume ps ≫= volume
           end)
          (_media_vol_level c)) as Hvol.
  { intros Hst. unfold apply_session.
    change (pi_state (member_session sn ps)) with (pi_state ps). rewrite Hst.
    generalize (bool_decide (pi_transport (member_session sn ps) ≠ ∅)).
    intros b. unfold populate.
    change (pi_lemurVolume (member_session sn ps)) with (@None LemurVolume).
    change (pi_volume (member_session sn ps))
      with (match pi_lemurVolume ps ≫= (fun lv => memberVolume lv !! sn) with
            | Some v => Some v
            | None => pi_volume ps
            end).
    destruct (pi_lemurVolume ps ≫= _); by destruct b. }
  split; [|split; [done|]].
  - apply gather_members_none. by intros ? [= <-].
  - intros lv vi z Hst Hlv Hvi Hz Hne. rewrite (Hvol Hst), Hlv. cbn.
    rewrite Hvi, Hz. unfold percent. by apply Z.eqb_neq in Hne as ->.
Qed.

(** ** What an event may change *)

#[local] Instance quiet_change_refl : Reflexive quiet_change.
Proof. by intros c. Qed.

#[local] Instance quiet_change_trans : Transitive quiet_change.
Proof.
  intros c1 c2 c3 [H12 P12] [H23 P23]. split; [by etrans|auto].
Qed.

Section QuietUpdate.

(** The value of [PLAY_SCAN_INTERVAL]. *)
Variable interval : Z.

Lemma refresh_touches_quiet m d s w :
  touches update_effect quiet_change m w (refresh m d s w).
Proof.
  eapply touches_weaken; [| |apply refresh_touches].
  - by intros [].
  - intros c c' (?&?&?&?&Hp&?). repeat split; try done. by rewrite Hp.
Qed.

Lemma schedule_poll_touches_quiet m seen w :
  touches update_effect quiet_change m w (schedule_poll interval m seen w).
Proof.
  unfold schedule_poll. destruct (entities w !! m) as [c|];
    [|apply touches_refl; apply _].
  repeat case_match; touch_with fail.
Qed.

Lemma async_update_touches_quiet m w :
  touches update_effect quiet_change m w (async_update interval m w).
Proof.
  unfold async_update.
  repeat case_match; try (apply touches_refl; apply _).
  eapply touches_trans; [apply _ | | apply schedule_poll_touches_quiet].
  eapply touches_trans; [apply _ | | apply refresh_touches_quiet].
  touch_with fail.
Qed.

End QuietUpdate.

Lemma advances_refl m w : advances m w w.
Proof.
  split; [done..|lia|done| |].
  - reflexivity.
  - exists []. by rewrite app_nil_r.
Qed.

Lemma advances_trans m w1 w2 w3 :
  advances m w1 w2 -> advances m w2 w3 -> advances m w1 w3.
Proof.
  intros [? ? ? ? ? ? Ho1 Hs1 (t1 & He1 & Ht1)] [? ? ? ? ? ? Ho2 Hs2 (t2 & He2 & Ht2)].
  split; [congruence..|lia| | |].
  - intros x Hx. by rewrite Ho2, Ho1.
  - destruct Hs1 as [c1 c2 H12|]; inversion Hs2 as [c2' c3 H23|]; subst;
      constructor. by etrans.
  - exists (t1 ++ t2). split; [|by apply Forall_app].
    by rewrite He2, He1, app_assoc.
Qed.

Lemma touches_advances m w w' :
  touches update_effect quiet_change m w w' -> advances m w w'.
Proof.
  intros [? ? ? ? ? Hc Ho Hs (t & He & Ht)]. split; [done..|lia|done|done|].
  exists t. split; [done|]. eapply Forall_impl; [done|]. by intros [].
Qed.

Lemma advances_sleep m n w : 0 <= n -> advances m w (sleep n w).
Proof.
  intros Hn. split; [done..| |done| |].
  - change (clock (sleep n w)) with (clock w + n). lia.
  - reflexivity.
  - exists [Sleep n]. split; [done|]. by repeat constructor.
Qed.

Lemma advances_emit m e w : passive_effect e -> advances m w (emit e w).
Proof.
  intros He. split; [done..|apply Z.le_refl|done| |].
  - reflexivity.
  - exists [e]. split; [done|]. by repeat constructor.
Qed.

Lemma advances_upd m f w :
  (forall c, quiet_change c (f c)) -> advances m w (upd m f w).
Proof.
  intros Hf. split; [done..|apply Z.le_refl| | |].
  - intros x Hx. by rewrite lookup_upd_ne.
  - rewrite lookup_upd. destruct (entities w !! m); by constructor.
  - exists []. by rewrite app_nil_r.
Qed.

Lemma advances_put m c c' w :
  entities w !! m = Some c -> quiet_change c c' -> advances m w (put m c' w).
Proof.
  intros Hm Hk. split; [done..|apply Z.le_refl| | |].
  - intros x Hx. by rewrite lookup_put_ne.
  - rewrite Hm, lookup_put. by constructor.
  - exists []. by rewrite app_nil_r.
Qed.

(** [adv] peels the outermost step off the final world. *)
Ltac adv :=
  lazymatch goal with
  | |- advances _ ?w ?w => apply advances_refl
  | |- advances _ _ (emit _ _) =>
      eapply advances_trans; [|apply advances_emit; exact I]; adv
  | |- advances _ _ (sleep _ _) =>
      eapply advances_trans; [|apply advances_sleep; lia]; adv
  | |- advances _ _ (upd _ _ _) =>
      eapply advances_trans;
        [|apply advances_upd; intros ?; by repeat split]; adv
  | |- advances _ _ (async_update _ _ _) =>
      eapply advances_trans;
        [|apply touches_advances, async_update_touches_quiet]; adv
  | |- advances _ _ (schedule_if_hass _ _ _) =>
      unfold schedule_if_hass at 1; repeat case_match; adv
  | |- advances _ _ (_refresh_if_no_audiopush _ _ _ _) =>
      unfold _refresh_if_no_audiopush at 1; repeat case_match; adv
  | |- _ => eassumption
  end.

Section EventFrame.

(** The value of [PLAY_SCAN_INTERVAL]. *)
Variable interval : Z.

Lemma dispatch_advances m ev sn w : advances m w (dispatch interval m ev sn w).
Proof.
  unfold dispatch.
  assert (forall v, advances m w (on_last_called m v sn w)) as H1.
  { intros v. unfold on_last_called.
    destruct (entities w !! m) as [c|] eqn:Hm; [|adv].
    match goal with |- context [put m ?x w] => set (c' := x) end.
    assert (advances m w (put m c' w)) as Hp.
    { eapply advances_put; [done|]. subst c'. case_match; by repeat split. }
    adv. }
  assert (forall v, advances m w (on_bluetooth m v sn w)) as H2.
  { intros v. unfold on_bluetooth.
    destruct (entities w !! m) as [c|] eqn:Hm; [|adv].
    destruct v as [bt|]; [|adv]. destruct (is_for c sn); [|adv].
    match goal with |- context [put m ?x w] => set (c3 := x) end.
    assert (advances m w (put m c3 w)) as Hp
      by (eapply advances_put; [done|by repeat split]).
    adv. }
  assert (forall v, advances m w (on_player_state interval m v sn w).1) as H3.
  { intros v. unfold on_player_state.
    destruct (entities w !! m) as [c|] eqn:Hm; [|cbn [fst]; adv].
    destruct v as [p|]; [|cbn [fst]; adv].
    destruct (is_for c sn); [|cbn [fst]; adv].
    repeat case_match; simplify_eq; cbn [fst]; adv. }
  assert (advances m w (on_push_activity interval m w).1) as H4.
  { unfold on_push_activity. repeat case_match; cbn [fst]; adv. }
  assert (forall v b w1, advances m w w1 ->
            advances m w (on_queue_state interval m v sn b w1)) as H5.
  { intros v b w1 Hw1. unfold on_queue_state. repeat case_match; adv. }
  destruct (last_called_change ev) as [v1|].
  { destruct (queue_state ev); [apply H5|]; apply H1. }
  destruct (bluetooth_change ev) as [v2|].
  { destruct (queue_state ev); [apply H5|]; apply H2. }
  destruct (player_state ev) as [v3|].
  { specialize (H3 v3). destruct (on_player_state _ _ _ _ _) as [w1 b].
    destruct (queue_state ev); [apply H5|]; apply H3. }
  destruct (push_activity ev) as [v4|].
  { destruct (on_push_activity _ _ _) as [w1 b].
    destruct (queue_state ev); [apply H5|]; apply H4. }
  destruct (queue_state ev); [apply H5|]; adv.
Qed.

Lemma handle_event_advances m ev w :
  advances m w (_handle_event interval m ev w).
Proof.
  unfold _handle_event. repeat case_match; try apply advances_refl.
  eapply advances_trans; [|apply dispatch_advances].
  unfold mark_available. adv.
Qed.

(** X15.  Handling an event changes nothing but the entity that handles
    it: the other entities, the listings and the account's push flags are
    as before, the entity keeps its platform fields and its cached
    previous volume, its polling flag is not turned on, the clock does not
    go back, and no play or volume command is sent to the remote
    session. *)
Theorem handle_event_frame m ev w :
  advances m w (_handle_event interval m ev w).
Proof. exact (handle_event_advances m ev w). Qed.

End EventFrame.

(** ** Branches of the event handler *)

Section EventBranches.

(** The value of [PLAY_SCAN_INTERVAL]. *)
Variable interval : Z.

Implicit Types (w : World) (c : AlexaClient) (m sn : string) (ev : EventData).

(** X16.  The handler ignores an event, leaving the world as it is, when
    the entity is disabled, when no serial or an empty serial comes out of
    the event, and in particular when the first of the five keys that is
    present holds a falsy payload, whatever the later keys hold, or when
    none of the keys is present. *)
Theorem handle_event_ignored m ev w :
  ((exists c, entities w !! m = Some c /\ enabled c = Some false) ->
   _handle_event interval m ev w = w)
  /\ (event_serial ev = None \/ event_serial ev = Some "" ->
      _handle_event interval m ev w = w)
  /\ (last_called_change ev = Some None
      \/ (last_called_change ev = None /\ bluetooth_change ev = Some None)
      \/ (last_called_change ev = None /\ bluetooth_change ev = None
          /\ player_state ev = Some None)
      \/ (last_called_change ev = None /\ bluetooth_change ev = None
          /\ player_state ev = None /\ queue_state ev = Some None)
      \/ (last_called_change ev = None /\ bluetooth_change ev = None
          /\ player_state ev = None /\ queue_state ev = None
          /\ (push_activity ev = None \/ push_activity ev = Some None)) ->
      _handle_event interval m ev w = w).
Proof.
  assert (event_serial ev = None \/ event_serial ev = Some "" ->
          _handle_event interval m ev w = w) as Hser.
  { intros H. unfold _handle_event. destruct (entities w !! m); [|done].
    destruct (bool_decide _); [done|]. by destruct H as [-> | ->]. }
  split; [|split; [done|]].
  - intros (c & Hm & Hen). unfold _handle_event. rewrite Hm, Hen.
    by rewrite bool_decide_eq_true_2.
  - intros H. apply Hser. left. unfold event_serial.
    destruct H as [->|[[-> ->]|[(-> & -> & ->)|[(-> & -> & -> & ->)|H]]]];
      try done.
    destruct H as (-> & -> & -> & -> & [-> | ->]); done.
Qed.

Lemma dispatch_last_called m ev v sn w :
  last_called_change ev = Some v -> queue_state ev = None ->
  dispatch interval m ev sn w = on_last_called m v sn w.
Proof. intros H1 H2. unfold dispatch. by rewrite H1, H2. Qed.

(** X17.  A last-called event whose serial is this device's or one of its
    app devices' sets the last-called flag and takes the timestamp of the
    event; beside the state write at the start, the handler asks the
    platform for one more state write, with a forced refresh exactly when
    the push channel is inactive. *)
Theorem last_called_own m ev lcc w c :
  entities w !! m = Some c -> enabled c ≠ Some false ->
  last_called_change ev = Some (Some lcc) -> queue_state ev = None ->
  lcc_serialNumber lcc ≠ "" ->
  lcc_serialNumber lcc = _device_serial_number c
  \/ lcc_serialNumber lcc ∈ _app_device_list c ->
  effects (_handle_event interval m ev w)
  = effects w ++ ScheduleUpdate m false
      :: (if hass c then [ScheduleUpdate m (negb (websocket w))] else [])
  /\ exists c', entities (_handle_event interval m ev w) !! m = Some c'
       /\ _last_called c' = Some true
       /\ _last_called_timestamp c' = Some (lcc_timestamp lcc)
       /\ available c' = Some true.
Proof.
  intros Hm Hen Hev Hq Hne Hown.
  assert (event_serial ev = Some (lcc_serialNumber lcc)) as Hsn
    by (unfold event_serial; by rewrite Hev).
  erewrite handle_event_dispatch by done.
  pose proof (lookup_mark_available m c w Hm) as Hmk.
  erewrite dispatch_last_called by done.
  unfold on_last_called. rewrite Hmk.
  assert (is_for (marked c) (lcc_serialNumber lcc)
          || mem (lcc_serialNumber lcc) (_app_device_list (marked c)) = true)
    as ->.
  { apply orb_true_iff. destruct Hown as [Ho|Ho].
    - left. unfold is_for. by apply String.eqb_eq.
    - right. by apply bool_decide_eq_true_2. }
  split.
  - unfold schedule_if_hass. rewrite lookup_put.
    change (hass (set_last_called_timestamp _ _)) with (hass c).
    destruct (hass c); cbn; by rewrite <- ?app_assoc.
  - eexists. split; [rewrite schedule_if_hass_entities; apply lookup_put|done].
Qed.

Lemma dispatch_bluetooth m ev v sn w :
  last_called_change ev = None -> bluetooth_change ev = Some v ->
  queue_state ev = None ->
  dispatch interval m ev sn w = on_bluetooth m v sn w.
Proof. intros H1 H2 H3. unfold dispatch. by rewrite H1, H2, H3. Qed.

(** X18.  A bluetooth event for this device replaces the bluetooth state
    and recomputes the source and the source list from it in place: the
    new list is "Local Speaker" and the event's paired devices with the
    "A2DP-SOURCE" profile.  Nothing but the platform's state writer is
    called, whatever the push channel has delivered.  A bluetooth event
    for another device only marks this one available. *)
Theorem bluetooth_event m ev bt w c :
  entities w !! m = Some c -> enabled c ≠ Some false ->
  last_called_change ev = None -> bluetooth_change ev = Some (Some bt) ->
  queue_state ev = None -> deviceSerialNumber bt ≠ "" ->
  (deviceSerialNumber bt = _device_serial_number c ->
     effects (_handle_event interval m ev w)
     = effects w ++ ScheduleUpdate m false
         :: (if hass c then [ScheduleUpdate m false] else [])
     /\ exists c', entities (_handle_event interval m ev w) !! m = Some c'
          /\ _bluetooth_state c' = bt
          /\ _source_list c'
             = "Local Speaker"
               :: (friendlyName <$>
                     List.filter (fun d => mem "A2DP-SOURCE" (profiles d))
                       (default [] (pairedDeviceList bt)))
          /\ (exists s, _source c' = Some s
                /\ (s = "Local Speaker" \/ s ∈ _source_list c))
          /\ media c' = media c /\ _session c' = _session c)
  /\ (deviceSerialNumber bt ≠ _device_serial_number c ->
      _handle_event interval m ev w = mark_available m w).
Proof.
  intros Hm Hen H1 H2 Hq Hne.
  assert (event_serial ev = Some (deviceSerialNumber bt)) as Hsn
    by (unfold event_serial; by rewrite H1, H2).
  erewrite handle_event_dispatch by done.
  pose proof (lookup_mark_available m c w Hm) as Hmk.
  erewrite dispatch_bluetooth by done.
  unfold on_bluetooth. rewrite Hmk, is_for_marked. split.
  - intros ->. rewrite is_for_own.
    match goal with |- context [put m ?x _] => set (c3 := x) end.
    assert (exists s, _source c3 = Some s
              /\ (s = "Local Speaker" \/ s ∈ _source_list c)) as Hsrc.
    { eexists. split; [done|].
      destruct (get_source_cases (set_bluetooth_state bt (marked c)))
        as ([->|(d & _ & _ & Hin & ->)] & _); [by left|by right]. }
    split.
    + unfold schedule_if_hass. rewrite lookup_put.
      assert (hass c3 = hass c) as -> by done.
      destruct (hass c); cbn; by rewrite <- ?app_assoc.
    + exists c3. split; [rewrite schedule_if_hass_entities; apply lookup_put|].
      by repeat split.
  - intros Hfor. unfold is_for. by apply String.eqb_neq in Hfor as ->.
Qed.

Lemma commands_schedule_if_hass m b w :
  websocket_commands (schedule_if_hass m b w) = websocket_commands w.
Proof. unfold schedule_if_hass. by repeat case_match. Qed.

(** X19.  A player-state event for this device that carries only a
    connection state sets the availability in place: available for
    "ONLINE", unavailable, and so shown as "unavailable", for anything
    else.  As after a volume setting, a full update follows exactly when
    the account's log of push commands is not empty and holds none of the
    three audio kinds. *)
Theorem connection_event m ev p s w c :
  entities w !! m = Some c -> enabled c ≠ Some false ->
  last_called_change ev = None -> bluetooth_change ev = None ->
  player_state ev = Some (Some p) -> queue_state ev = None ->
  ps_deviceSerialNumber p = _device_serial_number c ->
  _device_serial_number c ≠ "" ->
  audioPlayerState p = None -> mediaReferenceId p = None ->
  volumeSetting p = None -> dopplerConnectionState p = Some s ->
  available <$> entities (connection_set m s w) !! m
    = Some (Some (String.eqb s "ONLINE"))
  /\ (s ≠ "ONLINE" ->
      state <$> entities (connection_set m s w) !! m = Some STATE_UNAVAILABLE)
  /\ (exists t, effects (connection_set m s w) = effects w ++ t
            /\ Forall (fun e => e = ScheduleUpdate m false) t)
  /\ _handle_event interval m ev w
     = if seen_without_audio (websocket_commands w)
       then async_update interval m (connection_set m s w)
       else connection_set m s w.
Proof.
  intros Hm Hen H1 H2 H3 H4 Hp Hne Ha Hr Hv Hs.
  pose proof (lookup_mark_available m c w Hm) as Hmk.
  assert (entities (connection_set m s w) !! m
          = Some (set_available (Some (String.eqb s "ONLINE")) (marked c)))
    as Hl.
  { unfold connection_set. by rewrite schedule_if_hass_entities, lookup_upd, Hmk. }
  split; [by rewrite Hl|]. split; [|split].
  - intros Hoff. rewrite Hl. cbn [fmap option_fmap option_map]. f_equal.
    unfold state. cbn [available set_available _available].
    by apply String.eqb_neq in Hoff as ->.
  - unfold connection_set, schedule_if_hass. rewrite lookup_upd, Hmk.
    cbn [fmap option_fmap option_map].
    destruct (hass _).
    + exists [ScheduleUpdate m false; ScheduleUpdate m false]. split.
      * cbn. by rewrite <- app_assoc.
      * by repeat constructor.
    + exists [ScheduleUpdate m false]. split; [done | by repeat constructor].
  - assert (event_serial ev = Some (ps_deviceSerialNumber p)) as Hsn
      by (unfold event_serial; by rewrite H1, H2, H3).
    erewrite handle_event_dispatch; [|done..|by rewrite Hp].
    erewrite dispatch_player_state by done.
    unfold on_player_state. rewrite Hmk, is_for_marked, is_for_own, Ha, Hr, Hv, Hs.
    cbn [isSome fst]. fold (connection_set m s w).
    unfold _refresh_if_no_audiopush. cbn [negb andb].
    assert (websocket_commands (connection_set m s w) = websocket_commands w)
      as -> by (unfold connection_set; by rewrite commands_schedule_if_hass).
    by destruct (seen_without_audio _).
Qed.

Lemma dispatch_queue_state m ev v sn w :
  last_called_change ev = None -> bluetooth_change ev = None ->
  player_state ev = None -> push_activity ev = None ->
  queue_state ev = Some v ->
  dispatch interval m ev sn w = on_queue_state interval m v sn false w.
Proof. intros H1 H2 H3 H4 H5. unfold dispatch. by rewrite H1, H2, H3, H4, H5. Qed.

(** X20.  A queue-state event for this device sets repeat from the loop
    mode when the event says the track order did not change and carries a
    loop mode: true for "LOOP_QUEUE", false for any other mode; shuffle is
    then left alone even if the event carries a playback order.
    Otherwise a playback order sets shuffle: true for "SHUFFLE_ALL", false
    for any other order.  The values are never unknown, and the change is
    followed by a full update exactly when the log of push commands is
    not empty and holds none of the three audio kinds. *)
Theorem queue_event m ev q w c :
  entities w !! m = Some c -> enabled c ≠ Some false ->
  last_called_change ev = None -> bluetooth_change ev = None ->
  player_state ev = None -> push_activity ev = None ->
  queue_state ev = Some (Some q) ->
  qs_deviceSerialNumber q = _device_serial_number c ->
  _device_serial_number c ≠ "" ->
  exists w1 c1,
    _handle_event interval m ev w
    = (if seen_without_audio (websocket_commands w)
       then async_update interval m w1 else w1)
    /\ entities w1 !! m = Some c1
    /\ effects w1 = effects w ++ [ScheduleUpdate m false]
    /\ (forall l, trackOrderChanged q = Some false -> loopMode q = Some l ->
          _repeat c1 = Some (String.eqb l "LOOP_QUEUE")
          /\ _shuffle c1 = _shuffle c)
    /\ (forall o, trackOrderChanged q ≠ Some false \/ loopMode q = None ->
          playBackOrder q = Some o ->
          _shuffle c1 = Some (String.eqb o "SHUFFLE_ALL")
          /\ _repeat c1 = _repeat c)
    /\ (trackOrderChanged q ≠ Some false \/ loopMode q = None ->
        playBackOrder q = None ->
        _shuffle c1 = _shuffle c /\ _repeat c1 = _repeat c).
Proof.
  intros Hm Hen H1 H2 H3 H4 H5 Hq Hne.
  pose proof (lookup_mark_available m c w Hm) as Hmk.
  assert (event_serial ev = Some (qs_deviceSerialNumber q)) as Hsn
    by (unfold event_serial; by rewrite H1, H2, H3, H5).
  erewrite handle_event_dispatch; [|done..|by rewrite Hq].
  erewrite dispatch_queue_state by done.
  unfold on_queue_state. rewrite Hmk, is_for_marked, Hq, is_for_own.
  unfold _refresh_if_no_audiopush. cbn [negb andb].
  match goal with |- context [async_update interval m ?x] => set (w1 := x) end.
  assert (websocket_commands w1 = websocket_commands w) as Hc
    by (subst w1; by repeat case_match).
  assert (effects w1 = effects w ++ [ScheduleUpdate m false]) as He
    by (subst w1; by repeat case_match).
  rewrite Hc.
  destruct (bool_decide (trackOrderChanged q = Some false)) eqn:Ht;
    [apply bool_decide_eq_true_1 in Ht|apply bool_decide_eq_false_1 in Ht].
  - destruct (loopMode q) as [l|] eqn:Hl; cbn [isSome andb] in *.
    + exists w1, (set_repeat (Some (String.eqb l "LOOP_QUEUE")) (marked c)).
      split; [done|]. split; [subst w1; by rewrite lookup_upd, Hmk|].
      split; [done|]. split; [by intros ? _ [= <-]|].
      split; [by intros o [?|?]|by intros [?|?]].
    + destruct (playBackOrder q) as [o|] eqn:Ho.
      * exists w1, (set_shuffle (Some (String.eqb o "SHUFFLE_ALL")) (marked c)).
        split; [done|]. split; [subst w1; by rewrite lookup_upd, Hmk|].
        split; [done|]. split; [done|]. split; [by intros ? _ [= <-]|done].
      * exists w1, (marked c). by repeat split.
  - cbn [andb] in *. destruct (playBackOrder q) as [o|] eqn:Ho.
    + exists w1, (set_shuffle (Some (String.eqb o "SHUFFLE_ALL")) (marked c)).
      split; [done|]. split; [subst w1; by rewrite lookup_upd, Hmk|].
      split; [done|]. split; [done|]. split; [by intros ? _ [= <-]|done].
    + exists w1, (marked c). by repeat split.
Qed.

Lemma dispatch_push_activity m ev v sn w :
  last_called_change ev = None -> bluetooth_change ev = None ->
  player_state ev = None -> queue_state ev = None ->
  push_activity ev = Some v ->
  dispatch interval m ev sn w = (on_push_activity interval m w).1.
Proof.
  intros H1 H2 H3 H4 H5. unfold dispatch. rewrite H1, H2, H3, H4, H5.
  by destruct (on_push_activity _ _ _).
Qed.

(** X21.  A push-activity event with a non-empty serial, this device's or
    not, makes every handling entity whose player state is PLAYING, PAUSED
    or IDLE sleep 2 seconds and run a full update; an entity in any other
    player state is only marked available. *)
Theorem push_activity_event m ev sn w c :
  entities w !! m = Some c -> enabled c ≠ Some false ->
  last_called_change ev = None -> bluetooth_change ev = None ->
  player_state ev = None -> queue_state ev = None ->
  push_activity ev = Some (Some sn) -> sn ≠ "" ->
  _handle_event interval m ev w
  = if player_state_known c
    then async_update interval m (sleep 2 (mark_available m w))
    else mark_available m w.
Proof.
  intros Hm Hen H1 H2 H3 H4 H5 Hne.
  pose proof (lookup_mark_available m c w Hm) as Hmk.
  assert (event_serial ev = Some sn) as Hsn
    by (unfold event_serial; by rewrite H1, H2, H3, H4, H5).
  erewrite handle_event_dispatch by done.
  erewrite dispatch_push_activity by done.
  unfold on_push_activity. rewrite Hmk.
  assert (mem (state (marked c)) [STATE_IDLE; STATE_PAUSED; STATE_PLAYING]
          = player_state_known c) as ->; [|by destruct (player_state_known c)].
  unfold player_state_known, state.
  change (available (marked c)) with (Some true).
  change (media (marked c)) with (media c). cbn [truthy negb].
  destruct (str_is _ "PLAYING"); [done|].
  destruct (str_is _ "PAUSED"); [done|].
  by destruct (str_is _ "IDLE").
Qed.

End EventBranches.

Lemma last_called_own_witness :
  effects (_handle_event 20 "M" own_last_called sample_proven)
  = effects sample_proven ++ [ScheduleUpdate "M" false; ScheduleUpdate "M" false]
  /\ exists c', entities (_handle_event 20 "M" own_last_called sample_proven)
                  !! "M" = Some c'
       /\ _last_called c' = Some true
       /\ _last_called_timestamp c' = Some 104
       /\ available c' = Some true.
Proof.
  refine (last_called_own 20 "M" own_last_called
            {| lcc_serialNumber := "APP"; lcc_timestamp := 104 |}
            sample_proven (sample_client "M" ["P1"; "P2"])
            refresh_witness_lookup _ eq_refl eq_refl _ _).
  - discriminate.
  - discriminate.
  - right. cbn. in_list.
Defined.

Lemma bluetooth_event_witness :
  effects (_handle_event 20 "M" paired_event sample_unproven)
  = effects sample_unproven ++ [ScheduleUpdate "M" false; ScheduleUpdate "M" false]
  /\ exists c', entities (_handle_event 20 "M" paired_event sample_unproven)
                  !! "M" = Some c'
       /\ _bluetooth_state c' = sample_paired
       /\ _source_list c' = ["Local Speaker"; "Phone"]
       /\ (exists s, _source c' = Some s
             /\ (s = "Local Speaker"
                 \/ s ∈ _source_list (sample_client "M" ["P1"; "P2"])))
       /\ media c' = media (sample_client "M" ["P1"; "P2"])
       /\ _session c' = _session (sample_client "M" ["P1"; "P2"]).
Proof.
  refine (proj1 (bluetooth_event 20 "M" paired_event sample_paired
                   sample_unproven (sample_client "M" ["P1"; "P2"])
                   _ _ eq_refl eq_refl eq_refl _) eq_refl).
  - by vm_compute.
  - discriminate.
  - discriminate.
Defined.

Lemma connection_event_witness :
  available <$> entities (connection_set "M" "OFFLINE" sample_proven) !! "M"
    = Some (Some false)
  /\ state <$> entities (_handle_event 20 "M" offline_event sample_proven) !! "M"
     = Some STATE_UNAVAILABLE.
Proof.
  destruct (connection_event 20 "M" offline_event
              {| ps_deviceSerialNumber := "M"; audioPlayerState := None;
                 mediaReferenceId := None; volumeSetting := None;
                 dopplerConnectionState := Some "OFFLINE" |}
              "OFFLINE" sample_proven (sample_client "M" ["P1"; "P2"])
              refresh_witness_lookup ltac:(discriminate) eq_refl eq_refl eq_refl
              eq_refl eq_refl ltac:(discriminate) eq_refl eq_refl eq_refl eq_refl)
    as (H1 & H2 & _ & H4).
  split; [exact H1|]. rewrite H4. apply H2. discriminate.
Defined.

Lemma queue_event_witness :
  exists w1 c1,
    _handle_event 20 "M" loop_event sample_proven = w1
    /\ entities w1 !! "M" = Some c1
    /\ _repeat c1 = Some true /\ _shuffle c1 = None.
Proof.
  destruct (queue_event 20 "M" loop_event sample_queue sample_proven
              (sample_client "M" ["P1"; "P2"])
              refresh_witness_lookup ltac:(discriminate) eq_refl eq_refl eq_refl
              eq_refl eq_refl eq_refl ltac:(discriminate))
    as (w1 & c1 & Hh & Hl & _ & Hrep & _).
  exists w1, c1. split; [exact Hh|]. split; [exact Hl|].
  exact (Hrep "LOOP_QUEUE" eq_refl eq_refl).
Defined.

Lemma push_activity_event_witness :
  _handle_event 20 "M" push_event_P1 sample_proven
  = mark_available "M" sample_proven.
Proof.
  exact (push_activity_event 20 "M" push_event_P1 "P1" sample_proven
           (sample_client "M" ["P1"; "P2"])
           refresh_witness_lookup ltac:(discriminate) eq_refl eq_refl eq_refl
           eq_refl eq_refl ltac:(discriminate)).
Defined.

(** ** Outcome of an update *)

Section UpdateOutcome.

(** The value of [PLAY_SCAN_INTERVAL]. *)
Variable interval : Z.

Implicit Types (w : World) (c : AlexaClient) (m : string).

Lemma schedule_poll_outcome m seen w c :
  entities w !! m = Some c ->
  exists tm,
    entities (schedule_poll interval m seen w) !! m
    = Some (set_last_update (Some (clock w)) (set_should_poll false c))
    /\ effects (schedule_poll interval m seen w)
       = effects w ++ tm ++ [ScheduleUpdate m false]
    /\ (tm = [] \/ tm = [CallLater m (clock w) interval]
        \/ tm = [CallLater m (clock w) 300]).
Proof.
  intros Hm. unfold schedule_poll. rewrite Hm.
  assert (upd m (set_last_update (Some (clock w))) w
          = put m (set_last_update (Some (clock w)) c) w) as Hsame
    by by apply upd_put.
  destruct (_ && _).
  - destruct (scan_due _ _ _).
    + exists [CallLater m (clock w) interval].
      split; [by rewrite entities_emit, lookup_upd, entities_emit, lookup_upd, Hm|].
      split; [cbn; by rewrite <- app_assoc|auto].
    + exists []. split; [by rewrite entities_emit, !lookup_upd, Hm|]. split; [done|auto].
  - destruct (_should_poll c) eqn:Hp.
    + destruct (negb (websocket w)).
      * exists [CallLater m (clock w) 300].
        split; [by rewrite entities_emit, lookup_upd, entities_emit, lookup_upd, Hm|].
        split; [cbn; by rewrite <- app_assoc|auto].
      * exists []. split; [by rewrite entities_emit, !lookup_upd, Hm|]. split; [done|auto].
    + exists []. split; [|split; [done|auto]].
      rewrite entities_emit, lookup_upd, Hm. cbn. f_equal.
      destruct c. cbn in *. by rewrite Hp.
Qed.


End UpdateOutcome.



(** ** The polling flag *)

Lemma stays_off_refl w : polling_stays_off w w.
Proof. intros x. destruct (entities w !! x); constructor. by intros ?. Qed.

Lemma stays_off_trans w1 w2 w3 :
  polling_stays_off w1 w2 -> polling_stays_off w2 w3 -> polling_stays_off w1 w3.
Proof.
  intros H12 H23 x. specialize (H12 x). specialize (H23 x).
  destruct H12 as [c1 c2 H|]; inversion H23 as [? c3 H'|]; subst; constructor.
  intros Hp. by apply H, H'.
Qed.

Lemma stays_off_touches P m w w' :
  touches P quiet_change m w w' -> polling_stays_off w w'.
Proof.
  intros [_ _ _ _ _ _ Ho Hs _] x. destruct (decide (x = m)) as [->|Hne].
  - destruct Hs as [c c' [_ H]|]; by constructor.
  - rewrite (Ho x Hne). destruct (entities w !! x); constructor. by intros ?.
Qed.

Lemma stays_off_advances m w w' : advances m w w' -> polling_stays_off w w'.
Proof.
  intros [_ _ _ _ _ _ Ho Hs _] x. destruct (decide (x = m)) as [->|Hne].
  - destruct Hs as [c c' [_ H]|]; by constructor.
  - rewrite (Ho x Hne). destruct (entities w !! x); constructor. by intros ?.
Qed.

Lemma stays_off_put m c c' w :
  entities w !! m = Some c -> no_poll_on c c' ->
  polling_stays_off w (put m c' w).
Proof.
  intros Hm H x. destruct (decide (x = m)) as [->|Hne].
  - rewrite Hm, lookup_put. by constructor.
  - rewrite lookup_put_ne by done. destruct (entities w !! x); constructor.
    by intros ?.
Qed.

Lemma stays_off_upd m f w :
  (forall c, no_poll_on c (f c)) -> polling_stays_off w (upd m f w).
Proof.
  intros H x. destruct (decide (x = m)) as [->|Hne].
  - rewrite lookup_upd. destruct (entities w !! m); by constructor.
  - rewrite lookup_upd_ne by done. destruct (entities w !! x); constructor.
    by intros ?.
Qed.

Lemma stays_off_same w w' :
  entities w' = entities w -> polling_stays_off w w'.
Proof. intros H x. rewrite H. apply stays_off_refl. Qed.

Lemma stays_off_then_upd m f w w1 :
  polling_stays_off w w1 -> (forall c, no_poll_on c (f c)) ->
  polling_stays_off w (upd m f w1).
Proof. intros H Hf. eapply stays_off_trans; [done|by apply stays_off_upd]. Qed.

Lemma stays_off_then_emit e w w1 :
  polling_stays_off w w1 -> polling_stays_off w (emit e w1).
Proof. intros H. eapply stays_off_trans; [done|by apply stays_off_same]. Qed.

Section PollingFlag.

(** The value of [PLAY_SCAN_INTERVAL]. *)
Variable interval : Z.

Lemma after_command_quiet m w :
  touches update_effect quiet_change m w (after_command interval m w).
Proof.
  unfold after_command. destruct (negb _);
    [apply async_update_touches_quiet | apply touches_refl; apply _].
Qed.

Lemma stays_off_after_command m w w1 :
  polling_stays_off w w1 ->
  polling_stays_off w (after_command interval m w1).
Proof.
  intros H. eapply stays_off_trans; [done|].
  eapply stays_off_touches, after_command_quiet.
Qed.

Lemma stays_off_play n : forall x w w',
  async_media_play interval n x w = Some w' -> polling_stays_off w w'.
Proof.
  induction n as [|n IH]; intros x w w' Hrun; [done|].
  cbn [async_media_play] in Hrun.
  destruct (entities w !! x) as [c|]; [|done].
  destruct (negb (can_transport c)).
  { injection Hrun as <-. apply stays_off_refl. }
  destruct (_playing_parent c) as [p|].
  - destruct (async_media_play interval n p w) as [w1|] eqn:H1; [|done].
    injection Hrun as <-. apply stays_off_after_command. by eapply IH.
  - injection Hrun as <-. apply stays_off_after_command. by apply stays_off_same.
Qed.

Lemma stays_off_transport op n : forall x w w' l,
  transport interval op n x w = Some (w', l) -> polling_stays_off w w'.
Proof.
  induction n as [|n IH]; intros x w w' l Hrun; [done|].
  cbn [transport] in Hrun.
  destruct (entities w !! x) as [c|]; [|done].
  destruct (negb (can_transport c)).
  { injection Hrun as <- <-. apply stays_off_refl. }
  destruct (_playing_parent c) as [p|].
  - destruct (transport interval op n p w) as [[w1 l1]|] eqn:H1; [|done].
    injection Hrun as <- <-. apply stays_off_after_command. by eapply IH.
  - injection Hrun as <- <-. apply stays_off_after_command, stays_off_refl.
Qed.

(** X23.  No event, refresh, update, volume, mute, transport, source or
    media command and no power-off turns the polling flag of any entity
    on, adds an entity to the registry or drops one: once polling is off
    it stays off through all of them. *)
Theorem polling_never_enabled m w :
  (forall ev, polling_stays_off w (_handle_event interval m ev w))
  /\ (forall d s, polling_stays_off w (refresh m d s w))
  /\ polling_stays_off w (async_update interval m w)
  /\ (forall v, polling_stays_off w (async_set_volume_level interval m v w))
  /\ (forall b, polling_stays_off w (async_mute_volume interval m b w))
  /\ (forall n w', async_media_play interval n m w = Some w' ->
                   polling_stays_off w w')
  /\ (forall op n w' l, transport interval op n m w = Some (w', l) ->
                        polling_stays_off w w')
  /\ (forall n w' l, async_turn_off interval n m w = Some (w', l) ->
                     polling_stays_off w w')
  /\ (forall s, polling_stays_off w (async_select_source interval m s w).1)
  /\ (forall t i, polling_stays_off w (async_play_media interval m t i w).1).
Proof.
  repeat split.
  - intros ev. eapply stays_off_advances, handle_event_advances.
  - intros d s. eapply stays_off_touches, refresh_touches_quiet.
  - eapply stays_off_touches, async_update_touches_quiet.
  - intros v. unfold async_set_volume_level.
    destruct (entities w !! m) as [c|]; [|apply stays_off_refl].
    destruct (negb _); [apply stays_off_refl|].
    apply stays_off_after_command, stays_off_then_upd; [|by intros ? ?].
    apply stays_off_then_emit, stays_off_refl.
  - intros b. unfold async_mute_volume.
    destruct (entities w !! m) as [c|] eqn:Hm; [|apply stays_off_refl].
    destruct (negb _); [apply stays_off_refl|].
    apply stays_off_after_command.
    destruct b; [|destruct (_previous_volume _)];
      apply stays_off_then_emit; (eapply stays_off_put; [done|by intros ?]).
  - intros n w'. apply stays_off_play.
  - intros op n w' l. apply stays_off_transport.
  - intros n w' l. unfold async_turn_off, async_media_pause.
    destruct (transport _ _ _ _ _) as [[w1 l1]|] eqn:Ht; [|done].
    intros [= <- <-]. apply stays_off_then_upd; [|by intros ? ?].
    eapply stays_off_trans; [|by eapply stays_off_transport].
    apply stays_off_upd. by intros ? ?.
  - intros s. unfold async_select_source.
    destruct (entities w !! m) as [c|]; [|apply stays_off_refl].
    destruct (String.eqb s "Local Speaker").
    + apply stays_off_after_command, stays_off_upd. by intros ? ?.
    + destruct (select_paired _ _ _); cbn [fst];
        apply stays_off_after_command;
        [apply stays_off_refl | apply stays_off_upd; by intros ? ?].
  - intros t i. cbn [async_play_media fst].
    apply stays_off_after_command, stays_off_refl.
Qed.

End PollingFlag.

(** ** Commands *)

Lemma can_transport_true c :
  can_transport c = true <->
  truthy (available c) = true
  /\ (_media_player_state (media c) = Some "PLAYING"
      \/ _media_player_state (media c) = Some "PAUSED").
Proof.
  unfold can_transport, state, str_is.
  destruct (truthy (available c)); cbn [negb];
    [|rewrite andb_false_r; split; [done|by intros [? _]]].
  rewrite andb_true_r.
  destruct (_media_player_state (media c)) as [s|]; cbn.
  - destruct (String.eqb_spec s "PLAYING") as [->|H1]; [split; auto|].
    destruct (String.eqb_spec s "PAUSED") as [->|H2]; [split; auto|].
    split.
    + destruct (String.eqb s "IDLE"); done.
    + intros (_ & [[= ->]|[= ->]]); done.
  - split; [done|]. by intros (_ & [?|?]).
Qed.

Section Commands2.

(** The value of [PLAY_SCAN_INTERVAL]. *)
Variable interval : Z.

Implicit Types (w : World) (c : AlexaClient) (m p x : string).

(** X24.  The volume and mute commands do nothing on a device that is not
    available, and the transport commands (play, pause, next, previous)
    do nothing unless the device is available and its player state is
    PLAYING or PAUSED: on an idle or standby device play starts nothing.
    None of them reports an error. *)
Theorem commands_guarded m w c :
  entities w !! m = Some c ->
  (truthy (available c) = false ->
     (forall b, async_mute_volume interval m b w = w)
     /\ (forall v, async_set_volume_level interval m v w = w))
  /\ (truthy (available c) = false
      \/ (_media_player_state (media c) ≠ Some "PLAYING"
          /\ _media_player_state (media c) ≠ Some "PAUSED") ->
      (forall n, async_media_play interval (S n) m w = Some w)
      /\ (forall op n, transport interval op (S n) m w = Some (w, []))).
Proof.
  intros Hm. split.
  - intros Hav. unfold async_mute_volume, async_set_volume_level.
    rewrite Hm, Hav. done.
  - intros Hno.
    assert (can_transport c = false) as Hcan.
    { destruct (can_transport c) eqn:H; [|done].
      apply can_transport_true in H as [Hav Hst].
      destruct Hno as [Hno|[H1 H2]]; [congruence|]. by destruct Hst. }
    split; [intros n|intros op n]; cbn; by rewrite Hm, Hcan.
Qed.

(** X25.  The volume command on an available device sends the level to
    the remote session first and writes it to the snapshot.  With an
    active push channel nothing else happens: the level is the one sent,
    the device counts as muted exactly when that level is 0, and the
    cached previous volume is not touched.  With an inactive push channel
    an update follows. *)
Theorem set_volume_optimistic m (v : Q) w c :
  entities w !! m = Some c -> truthy (available c) = true ->
  (exists t, effects (async_set_volume_level interval m v w)
             = effects w ++ ApiSetVolume m v :: t
        /\ Forall update_effect t)
  /\ (websocket w = true ->
      effects (async_set_volume_level interval m v w)
      = effects w ++ [ApiSetVolume m v]
      /\ exists c', entities (async_set_volume_level interval m v w) !! m
                    = Some c'
           /\ volume_level c' = Some v
           /\ (is_volume_muted c' = true <-> Qeq v 0%Q)
           /\ _previous_volume c' = _previous_volume c)
  /\ (websocket w = false ->
      async_set_volume_level interval m v w
      = async_update interval m
          (upd m (set_media_vol_level (Some v)) (emit (ApiSetVolume m v) w))).
Proof.
  intros Hm Hav. unfold async_set_volume_level. rewrite Hm, Hav. cbn [negb].
  split; [|split].
  - destruct (after_command_touches interval m
                (upd m (set_media_vol_level (Some v)) (emit (ApiSetVolume m v) w)))
      as [_ _ _ _ _ _ _ _ (t & He & Ht)].
    exists t. split; [|done]. rewrite He. cbn. by rewrite <- app_assoc.
  - intros Hws. unfold after_command.
    assert (websocket (upd m (set_media_vol_level (Some v))
                         (emit (ApiSetVolume m v) w)) = true) as -> by done.
    cbn [negb]. split; [done|].
    exists (set_media_vol_level (Some v) c).
    split; [by rewrite lookup_upd, entities_emit, Hm|].
    split; [done|]. split; [|done].
    unfold is_volume_muted. cbn. apply Qeq_bool_iff.
  - intros Hws. unfold after_command.
    assert (websocket (upd m (set_media_vol_level (Some v))
                         (emit (ApiSetVolume m v) w)) = false) as -> by done.
    done.
Qed.

(** X26.  Muting an available device caches the volume level the snapshot
    holds at that moment, whatever was cached before and also when the
    level is unknown, and sends volume 0 to the remote session.  With an
    active push channel the snapshot's own level is not written: the
    device reports the same level and the same muted state as before
    until an event or a refresh brings the new level. *)
Theorem mute_caches_level m w c :
  entities w !! m = Some c -> truthy (available c) = true ->
  exists c' t,
    entities (async_mute_volume interval m true w) !! m = Some c'
    /\ _previous_volume c' = volume_level c
    /\ effects (async_mute_volume interval m true w)
       = effects w ++ ApiSetVolume m 0%Q :: t
    /\ Forall update_effect t
    /\ (websocket w = true ->
        t = [] /\ volume_level c' = volume_level c
        /\ is_volume_muted c' = is_volume_muted c
        /\ _media_is_muted (media c') = Some true).
Proof.
  intros Hm Hav.
  set (c1 := set_previous_volume (volume_level c)
               (set_media_is_muted (Some true) c)).
  assert (async_mute_volume interval m true w
          = after_command interval m (emit (ApiSetVolume m 0%Q) (put m c1 w)))
    as Hw.
  { unfold async_mute_volume. by rewrite Hm, Hav. }
  rewrite Hw. destruct (websocket w) eqn:Hws.
  - unfold after_command.
    assert (websocket (emit (ApiSetVolume m 0%Q) (put m c1 w)) = true) as ->
      by done.
    cbn [negb]. exists c1, []. split; [by rewrite entities_emit, lookup_put|].
    by repeat split.
  - destruct (command_result interval m (ApiSetVolume m 0%Q) c1 w (put m c1 w))
      as (c2 & t & Hc2 & Hk & He & Ht); [apply lookup_put|done|].
    exists c2, t. split; [done|]. split; [by destruct Hk as (_ & _ & _ & ->)|].
    by repeat split.
Qed.



End Commands2.

Lemma commands_guarded_witness :
  (async_mute_volume 20 "M" true sample_offline = sample_offline
   /\ async_set_volume_level 20 "M" (Qmake 2 5) sample_offline = sample_offline
   /\ transport 20 CallNext 1 "M" sample_offline = Some (sample_offline, []))
  /\ async_media_play 20 1 "M" sample_proven = Some sample_proven
  /\ transport 20 CallPause 1 "M" sample_proven = Some (sample_proven, []).
Proof.
  destruct (commands_guarded 20 "M" sample_offline
              (sample_entity "M" sample_offline) ltac:(by vm_compute))
    as [H1 H2].
  destruct (H1 eq_refl) as [Hmute Hvol].
  destruct (H2 (or_introl eq_refl)) as [_ Htr].
  destruct (commands_guarded 20 "M" sample_proven
              (sample_client "M" ["P1"; "P2"]) refresh_witness_lookup)
    as [_ H3].
  destruct H3 as [Hplay Hpause]; [right; split; discriminate|].
  split; [split; [apply Hmute|split; [apply Hvol|apply Htr]]|].
  split; [apply Hplay|apply Hpause].
Defined.

Lemma set_volume_optimistic_witness :
  effects (async_set_volume_level 20 "M" (Qmake 2 5) sample_proven)
  = effects sample_proven ++ [ApiSetVolume "M" (Qmake 2 5)]
  /\ exists c',
       entities (async_set_volume_level 20 "M" (Qmake 2 5) sample_proven) !! "M"
       = Some c'
       /\ volume_level c' = Some (Qmake 2 5)
       /\ (is_volume_muted c' = true <-> Qeq (Qmake 2 5) 0%Q)
       /\ _previous_volume c' = _previous_volume (sample_client "M" ["P1"; "P2"]).
Proof.
  exact (proj1 (proj2 (set_volume_optimistic 20 "M" (Qmake 2 5) sample_proven
                         (sample_client "M" ["P1"; "P2"])
                         refresh_witness_lookup eq_refl)) eq_refl).
Defined.

Lemma mute_caches_level_witness :
  exists c' t,
    entities (async_mute_volume 20 "M" true sample_proven) !! "M" = Some c'
    /\ _previous_volume c' = Some (Qmake 3 10)
    /\ effects (async_mute_volume 20 "M" true sample_proven)
       = effects sample_proven ++ ApiSetVolume "M" 0%Q :: t
    /\ Forall update_effect t
    /\ (websocket sample_proven = true ->
        t = [] /\ volume_level c' = Some (Qmake 3 10)
        /\ is_volume_muted c' = is_volume_muted (sample_client "M" ["P1"; "P2"])
        /\ _media_is_muted (media c') = Some true).
Proof.
  exact (mute_caches_level 20 "M" sample_proven (sample_client "M" ["P1"; "P2"])
           refresh_witness_lookup eq_refl).
Defined.


(** ** Power commands *)

Section Power.

(** The value of [PLAY_SCAN_INTERVAL]. *)
Variable interval : Z.

Implicit Types (w : World) (c : AlexaClient) (m p x : string).

Lemma async_update_polling_off m w c :
  entities w !! m = Some c -> enabled c ≠ Some false -> entity_id c ≠ None ->
  devices w !! _device_serial_number c ≠ None ->
  exists c', entities (async_update interval m w) !! m = Some c'
             /\ _should_poll c' = false.
Proof.
  intros Hm Hen Hid Hd. unfold async_update. rewrite Hm.
  rewrite bool_decide_eq_false_2 by done.
  destruct (entity_id c); [|done]. cbn [isSome negb].
  destruct (devices w !! _) as [d|]; [|done].
  destruct (refresh_touches m (Some d) false (emit (Refresh m) w))
    as [_ _ _ _ _ _ _ Hself _].
  rewrite entities_emit, Hm in Hself. inversion Hself as [? c1 Hk Hx Hc1|].
  symmetry in Hc1.
  destruct (schedule_poll_outcome interval m (websocket_commands w) _ c1 Hc1)
    as (tm & Hl & _).
  eexists. split; [exact Hl|done].
Qed.


(** X29.  Turning a device on sets the polling flag and pauses.  On a
    device that is not available or neither PLAYING nor PAUSED that is
    all: no remote call and no update, although the command is meant as a
    trigger for one.  On a device the pause acts on, with no playing
    parent, the flag stays on only while the push channel is active: with
    an inactive channel the update that follows the pause (of an enabled
    entity with an entity id and a listing) turns it off again before the
    command returns. *)
Theorem turn_on_outcome m w c :
  entities w !! m = Some c ->
  (can_transport c = false ->
     forall n, async_turn_on interval (S n) m w
               = Some (upd m (set_should_poll true) w, []))
  /\ (can_transport c = true -> _playing_parent c = None ->
      (websocket w = true ->
         forall n, async_turn_on interval (S n) m w
                   = Some (upd m (set_should_poll true) w, [(m, CallPause)]))
      /\ (websocket w = false -> enabled c ≠ Some false ->
          entity_id c ≠ None ->
          devices w !! _device_serial_number c ≠ None ->
          forall n, exists w' c',
            async_turn_on interval (S n) m w = Some (w', [(m, CallPause)])
            /\ entities w' !! m = Some c' /\ _should_poll c' = false)).
Proof.
  intros Hm.
  assert (forall n, async_turn_on interval (S n) m w
            = if negb (can_transport c)
              then Some (upd m (set_should_poll true) w, [])
              else match
                     match _playing_parent c with
                     | Some p => transport interval CallPause n p
                                   (upd m (set_should_poll true) w)
                     | None => Some (upd m (set_should_poll true) w,
                                     [(m, CallPause)])
                     end
                   with
                   | Some (w1, calls) =>
                       Some (after_command interval m w1, calls)
                   | None => None
                   end) as Hon.
  { intros n. unfold async_turn_on, async_media_pause. cbn [transport].
    by rewrite lookup_upd, Hm. }
  split.
  - intros Hcan n. by rewrite Hon, Hcan.
  - intros Hcan Hp. split.
    + intros Hws n. rewrite Hon, Hcan, Hp. cbn [negb].
      unfold after_command.
      assert (websocket (upd m (set_should_poll true) w) = true) as -> by done.
      done.
    + intros Hws Hen Hid Hd n. rewrite Hon, Hcan, Hp. cbn [negb].
      unfold after_command.
      assert (websocket (upd m (set_should_poll true) w) = false) as -> by done.
      cbn [negb].
      destruct (async_update_polling_off m (upd m (set_should_poll true) w)
                  (set_should_poll true c)) as (c' & Hl & Hoff);
        [by rewrite lookup_upd, Hm|done|done|done|].
      by exists (async_update interval m (upd m (set_should_poll true) w)), c'.
Qed.

End Power.


Lemma turn_on_outcome_witness :
  (async_turn_on 20 1 "M" sample_proven
   = Some (upd "M" (set_should_poll true) sample_proven, []))
  /\ exists w' c',
       async_turn_on 20 1 "M" sample_polled = Some (w', [("M", CallPause)])
       /\ entities w' !! "M" = Some c' /\ _should_poll c' = false.
Proof.
  split.
  - exact (proj1 (turn_on_outcome 20 "M" sample_proven
                    (sample_client "M" ["P1"; "P2"]) refresh_witness_lookup)
             eq_refl O).
  - refine (proj2 (proj2 (turn_on_outcome 20 "M" sample_polled
                            (sample_entity "M" sample_polled) _) _ _)
              _ _ _ _ O).
    + by vm_compute.
    + by vm_compute.
    + by vm_compute.
    + reflexivity.
    + discriminate.
    + discriminate.
    + vm_compute. discriminate.
Defined.

(** ** Source selection *)

Section SelectSource.

(** The value of [PLAY_SCAN_INTERVAL]. *)
Variable interval : Z.

Implicit Types (w : World) (c : AlexaClient) (m : string).



End SelectSource.


(** ** Further sample runs *)

Lemma state_classification_witness :
  state (sample_client "M" []) = STATE_STANDBY
  /\ media_content_type sample_art = MEDIA_TYPE_MUSIC.
Proof.
  split.
  - apply (proj1 (proj2 (proj2 (state_classification (sample_client "M" []))))
             eq_refl).
    repeat split; discriminate.
  - apply (proj2 (proj2 (proj2 (state_classification sample_art)))).
    by left.
Defined.

Lemma media_image_url_escaped_witness :
  media_image_url sample_art = Some "http://art/cover%281%29.jpg"
  /\ occurs open_paren "http://art/cover%281%29.jpg" = false
  /\ occurs close_paren "http://art/cover%281%29.jpg" = false.
Proof.
  split; [reflexivity|].
  destruct (proj1 (media_image_url_escaped sample_art)
              "http://art/cover%281%29.jpg" eq_refl) as (H1 & H2 & _).
  by split.
Defined.

Lemma source_list_members_witness :
  _get_source_list (sample_client "M" []) = ["Local Speaker"]
  /\ "Phone" ∈ _get_source_list sample_speaker.
Proof.
  split.
  - exact (proj2 (proj2 (source_list_members (sample_client "M" []))) eq_refl).
  - apply (proj1 (proj2 (source_list_members sample_speaker))). right.
    exists {| connected := true; friendlyName := "Phone";
              profiles := ["A2DP-SOURCE"]; address := "00:11" |}.
    split; [cbn; in_list|]. split; [cbn; in_list|done].
Defined.

Lemma source_resolution_witness :
  _get_source sample_speaker = "Local Speaker".
Proof.
  exact (proj1 (proj2 (source_resolution sample_speaker)) eq_refl).
Defined.

Lemma refresh_sources_stable_witness :
  exists s,
    _source (refresh_sources (refresh_sources sample_speaker)) = Some s
    /\ s ∈ _source_list (refresh_sources (refresh_sources sample_speaker)).
Proof.
  exact (proj2 (refresh_sources_stable sample_speaker) eq_refl).
Defined.

Lemma reconciled_volume_witness :
  _media_vol_level (apply_session (Some sample_session) (sample_client "M" []))
  = Some (Qmake 30 100).
Proof.
  refine (proj2 (proj2 (reconciled_volume (Some sample_session)
                          (sample_client "M" [])))
            sample_session {| volume := Some 30; muted := Some false |} 30
            eq_refl eq_refl eq_refl eq_refl eq_refl _).
  discriminate.
Defined.

Lemma member_session_volume_witness :
  _media_vol_level
    (apply_session (Some (member_session "M" sample_group_session))
       (sample_client "M" ["P1"; "P2"]))
  = Some (Qmake 45 100).
Proof.
  refine (proj2 (proj2 (member_session_volume sample_proven "M"
                          sample_group_session (sample_client "M" ["P1"; "P2"])))
            _ {| volume := Some 45; muted := Some false |} 45
            eq_refl eq_refl _ eq_refl _).
  - by vm_compute.
  - discriminate.
Defined.

Lemma handle_event_ignored_witness :
  _handle_event 20 "M" empty_event sample_proven = sample_proven.
Proof.
  exact (proj1 (proj2 (handle_event_ignored 20 "M" empty_event sample_proven))
           (or_introl eq_refl)).
Defined.

Lemma polling_never_enabled_witness :
  async_media_play 20 1 "M" sample_later
  = Some (emit (ApiPlay "M") sample_later)
  /\ polling_stays_off sample_later (emit (ApiPlay "M") sample_later).
Proof.
  assert (async_media_play 20 1 "M" sample_later
          = Some (emit (ApiPlay "M") sample_later)) as Hrun by by vm_compute.
  split; [exact Hrun|].
  destruct (polling_never_enabled 20 "M" sample_later)
    as (_ & _ & _ & _ & _ & Hplay & _).
  exact (Hplay 1%nat _ Hrun).
Defined.
